(* ===== verification/_CoqProject ===== *)
-Q . S2P
Prelude.v
Float64.v
Render.v
Gesture.v
Smoother.v
Flight.v
Pipes.v
Game.v
Display.v
