(* ===== verification/Prelude.v ===== *)
(** * Verification of the gesture-controlled Flappy Bird
      (src/hand_flappy_pro.py)

    ** The program

    One Python script runs a frame loop ([while running:], lines 175-262)
    over module-level globals.  Per frame it reads the pygame events, and
    while the game is not over it reads a camera frame, lets MediaPipe find
    a hand, classifies the raised fingers ([detect_turbo_gesture]), folds the
    palm height into an exponential moving average ([detect_hand_control])
    and steers the bird toward it ([velocity = (hand_y - bird_y) * gain],
    then gravity).  Every frame, over or not, it scrolls the pipes, scores
    the pipes the bird has passed and checks collisions in one
    [for pipe in pipes] loop, recycles the pipes that left the screen,
    spawns a new one, checks the ground and the ceiling, and, when the game
    is over, reads another frame to look for an open palm that restarts the
    game ([detect_restart], [reset_game]).

    ** Files, in dependency order

    - [Prelude] (this file): truthiness of the control value ([py_truthy]), the float comparison
      [Qltb], the screen size, the sounds ([sound]: the looping
      background music and the three one-shot sounds), the notation
      [z%:Q] for integers used as floats (scope [flappy_scope]), the hint
      databases [flappy] and [flappy_rw], and generic list lemmas (first
      element satisfying a test, [StronglySorted] under filter and
      append).
    - [Float64] (Module [Float64]): Python's [float] as IEEE 754
      binary64, Stdlib's [SpecFloat] at precision 53 and exponent bound
      1024: [float(n)] ([of_int]), [*], [+], [-], [/], and [int(x)]
      ([py_int_f], [None] where Python raises).  Its lemmas give the
      rounding error of [*] and [+] on non-negative floats (exact when the
      value is representable, otherwise within [2^(fexp D + 2)] where [D]
      is the binary magnitude), proved from SpecFloat's shifting and
      rounding functions, and [int()] as the floor.
    - [Render] (Module [Render]): the Presentation sink.  A frame's drawing
      is the ordered list of its [screen.blit] calls ([blit]: surface,
      [x], [y]); the surfaces are the four images and the texts of
      [font.render] with their strings and colours; [draw_hud] is lines
      238-256.
    - [Gesture] (Module [Gesture]): the Landmark Interpreter.  A hand is
      MediaPipe's landmark list; [fingers_up] is the [zip(fingers,pips)]
      loop of lines 90-96 and 154-160, returning [None] where Python raises
      [IndexError]; [detect_turbo_gesture] updates the globals
      [turbo_mode]/[turbo_sound_played] (record [turbo_state]) and returns
      the turbo sound; [restart_gesture] is the [up >= 4] test.
    - [Smoother] (Module [Smoother]): [detect_hand_control] (lines
      110-138) with the camera read as an input ([camera]: [None] when
      [cap.read()] fails); [alpha] (line 66), [target_of] (line 130) and
      [smooth] (line 132) are the float expressions of the source in
      binary64; the state is [control_state] (turbo globals and
      [smoothed_y]).
    - [Flight] (Module [Flight]): [flight_step] is lines 186-194 on the
      [body] ([bird_y], [velocity]).
    - [Pipes] (Module [Pipes]): [spawn_pipe], the loop of lines 200-224 as
      [iterate_pipes]/[pipe_loop] with the two blits of each pipe
      ([draw_pipe], lines 206-207), the filter of line 227 and the spawn
      rule of lines 229-231.  The loop is Python's list iterator: an index
      into the shared list, in-place updates of the current element with
      stdpp's [<[i:=p]>], and [pipes.clear()] emptying that list so that the
      iterator stops.  [advance] and [newly_scored] are the reference
      behaviour of one pipe.
    - [Game] (Module [Game]): the globals as the record [game]; one frame
      is [tick], the composition, in source order, of [handle_events],
      [flight_phase], [pipes_phase], [boundary_phase] and [restart_phase],
      with the blits of the background (line 177), the bird (line 197),
      the pipes and the texts ([frame_hud], before the restart check);
      [run] is the [while running:] loop over a list of frame inputs,
      [program] the whole script ([bg_sound.play(-1)], the first
      [spawn_pipe()], the loop), and [reachable] the states reachable from
      [init_game] by [tick].
    - [Display] (Module [Display]): what a frame draws against the state
      it leaves.

    The environment of a frame is the record [frame_input]: whether a quit
    event is queued, the two camera frames (the control read and the
    restart read) and the two [random.randint(150, 400)] heights.  A frame
    returns the new state, the list of sounds it played and the list of
    blits it drew, in program order, or [None] when a landmark lookup
    raised [IndexError].

    ** Numbers

    Python ints are [Z] (unbounded, as in Python).  Where the program
    truncates a float with [int()] (lines 130 and 132) a rounding error
    can change the integer, so there the floats are binary64 values
    ([Float64.float]): the landmark coordinates, [alpha], and the products
    and sum of the smoothing step, each rounded as CPython rounds them.
    The floats of the bird's flight ([bird_y], [velocity], [gravity], the
    gains) are exact rationals [Q]: the model of lines 186-194 is the
    program over the real numbers, with the gains exactly [26/100] and
    [8/100] where the source has the binary64 literals [0.26] and [0.08],
    and no rounding of [-], [*] and [+].  A binary64 run rounds at each of
    these operations, so exact values of the flight (the decay toward the
    hover height, [velocity + 0.5]) do not carry over to the program; the
    flight theorems kept state which law a frame applies (C10, C13, C14),
    not values that rounding changes.  [flight_step] stores reduced fractions ([Qred], equal as a
    number), so that runs of many frames compute; statements about floats
    use the rational equality [==] and the equivalence [Flight.body_equiv],
    with [Proper] instances for the operations that use them.

    ** What is proved (claim ids in the doc comments)

    - Game: the state invariant of every reachable state (C1: pipes ordered
      and spaced, turbo flag equal to [turbo_mode], a pipe whenever the game
      runs, [bird_x] in {100, 10}), its bounds (C7: at most five pipes, at
      most one beside the bird) and the non-negative score (C32); the
      open-palm restart (C2), the only way out of the game-over screen
      (C34); the score accounting of a frame (C5); three behaviours that
      differ from the specification: a frame without a hand still steers
      toward the stale [smoothed_y] (C10), a ground/ceiling death leaves
      the bird off screen, the pipes scrolling and scoring and the
      game-over sound replaying every frame (C11), and [bird_x] stays 10
      after the first collision (C12); a frame, and a whole run, over
      MediaPipe hands (21 landmarks) never raises (C25, C26); the frame
      with a quit event is completed and is the last (C28); a frame plays
      the turbo sound exactly on entering turbo (C29); the background music
      is started once, before the first frame (C33).
    - Pipes: the loop refines its reference behaviour without a collision
      (C3) and stops with an empty list at the first collision (C4); the
      loop, filter and spawn rule keep the pipes ordered, spaced and in
      [(-70, WIDTH]] (C6).
    - Presentation (Render, Display): every pipe of the new state but a
      freshly spawned one is drawn at its position (C8); a frame ends with
      the texts of the state it leaves, or, when it restarts, with the
      game-over screen of the state before the reset (C9, C31).
    - Flight: the control law overwrites the velocity (C13); exactly the
      control value 0 is treated as a missing hand (C14).
    - Smoother: the binary64 smoothing step refines the integer quotient
      [(15 t + 85 s) / 100], being it or one less when it is exact (C27);
      its fixed points (C15); a steady hand moves it at most once, one unit
      down, and does at 101 of the 701 screen heights (C30); it never
      reaches a target above it (C16), and from above it drops every frame
      until it is within one unit of the target (C17); its range (C20);
      [detect_hand_control] without a hand (C18) and its totality and
      on-screen range (C19).
    - Gesture: the edge-triggered turbo sound (C21), the turbo update (C22),
      the restart reading (C23) and the [IndexError] condition (C24).

    ** Bounds and fuel

    [iterate_pipes] runs on fuel; [pipe_loop] gives it one more unit than
    the list has elements, and C3 and C4 show that this fuel completes
    the loop (their right-hand sides are the complete results).  [run] is
    structural on the list of frames.  [smooth_n] iterates the smoothing
    step a given number of frames.  No other definition uses fuel.  The
    error analysis of line 132 covers heights in [0, 2^20]; the screen's
    heights [0..700] are far inside it.

    ** Not modelled

    The pixels of the images and of the font, window creation and
    [pygame.display.update()] (the model has the ordered blits, not the
    picture); the camera window ([cv2.imshow], [cv2.waitKey]); mixer
    initialisation and sound-file loading (the model has every [play()]
    call as an event; [flap_sound] is never played); OpenCV and MediaPipe
    themselves (their results are inputs); frame pacing
    ([clock.tick(30)]) and the resource release after the loop
    ([cap.release()], [cv2.destroyAllWindows()], [pygame.quit()]), which
    do not touch the modelled state.

    ** Plan for later sittings

    The flight in binary64 (Float64 has the operations and their error
    bounds); the one-shot discipline of the collision sound over whole
    runs; landmark coordinates outside [0, 1]; a refinement of the
    specification's abstract tick (Section 4) by [tick]. *)

From stdpp Require Import base list decidable.
From Stdlib Require Import QArith Qround Lqa ZArith Lia Sorted.

Declare Scope flappy_scope.
Delimit Scope flappy_scope with flappy.

(** ** Numbers of the program

    Python ints are unbounded, so they are [Z].  The floats of the
    bird's flight are modelled by exact rationals [Q], with the
    comparisons [Qlt]/[Qle] and the equality [Qeq]; the float expressions
    that [int()] truncates are evaluated in binary64 ([Float64.v]). *)

Notation "z %:Q" := (inject_Z z) (at level 1, left associativity, format "z %:Q")
  : flappy_scope.
Open Scope flappy_scope.

(** The strict float comparison [x < y] as a boolean. *)
Definition Qltb (x y : Q) : bool := negb (Qle_bool y x).

(** [if hand_y:] on the value of [detect_hand_control()]: [None] and
    the integer [0] are false, every other integer is true. *)
Definition py_truthy (o : option Z) : bool :=
  match o with Some z => negb (z =? 0)%Z | None => false end.

(** Screen size (line 11). *)
Definition WIDTH : Z := 1000.
Definition HEIGHT : Z := 700.

(** ** Shared lemmas *)

Create HintDb flappy.
Create Rewrite HintDb flappy_rw.

(** ** Sounds played by the program (lines 23-28)

    [BgMusic] is [bg_sound.play(-1)] (line 24), which starts the
    background music looping forever; the three one-shot sounds are played
    by the frames; [flap_sound] is loaded but never played. *)
Inductive sound := BgMusic | TurboSound | ScoreSound | GameOverSound.

Lemma Qltb_spec (x y : Q) : Qltb x y = true <-> (x < y)%Q.
Proof.
  unfold Qltb. rewrite negb_true_iff. split; intros H.
  - apply Qnot_le_lt. intros Hle. apply Qle_bool_iff in Hle. congruence.
  - destruct (Qle_bool y x) eqn:E; [|done].
    apply Qle_bool_iff in E. exfalso. apply (Qlt_not_le x y); done.
Qed.

#[export] Instance Qltb_proper : Proper (Qeq ==> Qeq ==> eq) Qltb.
Proof. intros x x' Hx y y' Hy. unfold Qltb. by rewrite Hx, Hy. Qed.

#[export] Instance sound_eq_dec : EqDecision sound.
Proof. solve_decision. Defined.

(** ** Generic list lemmas *)

Section Lists.
Context {A : Type}.

(** A list splits at its first element satisfying a boolean test, or has
    none. *)
Lemma first_true_split (f : A -> bool) (l : list A) :
  Forall (fun x => f x = false) l \/
  exists pre x post, l = pre ++ x :: post /\ Forall (fun y => f y = false) pre /\ f x = true.
Proof.
  induction l as [|x l IH]; [by left|].
  destruct (f x) eqn:Hx.
  - right. exists [], x, l. done.
  - destruct IH as [H|(pre & y & post & -> & Hpre & Hy)].
    + left. by constructor.
    + right. exists (x :: pre), y, post. split; [done|]. split; [by constructor|done].
Qed.

Context (R : A -> A -> Prop).

Lemma StronglySorted_filter (P : A -> Prop) `{!forall x, Decision (P x)} (l : list A) :
  StronglySorted R l -> StronglySorted R (filter P l).
Proof.
  induction 1 as [|x l Hl IH Hx]; [constructor|].
  rewrite filter_cons. case_decide; [|done].
  constructor; [done|]. apply Forall_forall. intros y Hy.
  apply (proj1 (Forall_forall _ _) Hx). apply list_elem_of_In in Hy.
  apply list_elem_of_In. by apply list_elem_of_filter in Hy as [_ ?].
Qed.

Lemma StronglySorted_snoc (l : list A) (x : A) :
  StronglySorted R l -> Forall (fun y => R y x) l -> StronglySorted R (l ++ [x]).
Proof.
  induction 1 as [|y l Hl IH Hy]; intros Hx.
  - repeat constructor.
  - inversion Hx as [|? ? Hyx Hlx]; subst. simpl. constructor; [by apply IH|].
    apply Forall_app. split; [done|]. by constructor.
Qed.

Lemma StronglySorted_snoc_inv (l : list A) (x : A) :
  StronglySorted R (l ++ [x]) -> StronglySorted R l /\ Forall (fun y => R y x) l.
Proof.
  induction l as [|y l IH]; intros H; [split; constructor|].
  inversion H as [|? ? Hl Hy]; subst. destruct (IH Hl) as [IH1 IH2].
  apply Forall_app in Hy as [Hy1 Hy2]. inversion Hy2; subst.
  split; constructor; done.
Qed.

End Lists.
