(* ===== verification/Float64.v ===== *)
(** * Python's [float]: IEEE 754 binary64 arithmetic.

    CPython's [float] is an IEEE 754 binary64 number and its [+], [-] and
    [*] round to nearest, ties to even.  The Standard Library's
    [SpecFloat] is a Gallina specification of exactly this arithmetic
    (taken from Flocq), parameterised by the precision [prec = 53] and the
    exponent bound [emax = 1024]; this file instantiates it, gives
    Python's [int(x)] on floats, and proves the rounding-error bound
    used by the smoothing step of [detect_hand_control]: a rounded
    result [m * 2^e] of [mx * 2^ex] lies within [2^(fexp D + 2)] of it,
    where [D] is the binary magnitude of [mx * 2^ex], and is exact when
    the value is representable. *)

From Stdlib Require Import QArith Qround Qpower Qabs Lqa ZArith Lia SpecFloat.
From S2P Require Import Prelude.

Module Float64.

Definition prec : Z := 53.
Definition emax : Z := 1024.

(** A Python [float]. *)
Definition float := spec_float.

(** [float(n)] of a Python int, and the arithmetic operators. *)
Definition of_int (z : Z) : float := binary_normalize prec emax z 0 false.
Definition fmul (x y : float) : float := SFmul prec emax x y.
Definition fadd (x y : float) : float := SFadd prec emax x y.
Definition fsub (x y : float) : float := SFsub prec emax x y.
Definition fdiv (x y : float) : float := SFdiv prec emax x y.

Arguments of_int : simpl never.
Arguments fmul : simpl never.
Arguments fadd : simpl never.
Arguments fsub : simpl never.
Arguments fdiv : simpl never.

(** The float nearest to [m * 2^e], in canonical form (a literal). *)
Definition of_dyadic (m e : Z) : float := binary_normalize prec emax m e false.

(** [2 ^ e] as a rational, for any integer [e]. *)
Definition pw (e : Z) : Q := (2 # 1) ^ e.

(** The real value of a finite float; infinities and NaN have none. *)
Definition fval (x : float) : Q :=
  match x with
  | S754_finite s m e => (if s then - inject_Z (Zpos m) else inject_Z (Zpos m)) * pw e
  | _ => 0
  end.

(** [int(x)]: truncation toward zero; [int] of an infinity raises
    [OverflowError] and of a NaN [ValueError], both [None] here. *)
Definition py_int_f (x : float) : option Z :=
  match x with
  | S754_zero _ => Some 0%Z
  | S754_finite s m e =>
      let a := if (0 <=? e)%Z then (Zpos m * 2 ^ e)%Z else (Zpos m / 2 ^ (- e))%Z in
      Some (if s then (- a)%Z else a)
  | _ => None
  end.

(** A finite float of sign [+] (zero included). *)
Definition nonneg_finite (x : float) : Prop :=
  match x with
  | S754_zero _ | S754_finite false _ _ => True
  | _ => False
  end.

Definition fexp64 (d : Z) : Z := fexp prec emax d.

(** ** Powers of two *)

Lemma pw_pos (e : Z) : 0 < pw e.
Proof. apply Qpower_0_lt. reflexivity. Qed.

Lemma pw_add (e n : Z) : pw (e + n) == pw e * pw n.
Proof. apply Qpower_plus. discriminate. Qed.

Lemma pw_Z (n : Z) : (0 <= n)%Z -> pw n == inject_Z (2 ^ n).
Proof. intros Hn. unfold pw. rewrite Zpower_Qpower by assumption. reflexivity. Qed.

Lemma pw_le (e e' : Z) : (e <= e')%Z -> pw e <= pw e'.
Proof. intros H. apply Qpower_le_compat_l; [assumption | unfold Qle; simpl; lia]. Qed.

Lemma pw_succ (e : Z) : pw (e + 1) == 2 * pw e.
Proof. rewrite pw_add. unfold pw at 2. simpl. ring. Qed.

Lemma fexp64_mono (d d' : Z) : (d <= d')%Z -> (fexp64 d <= fexp64 d')%Z.
Proof. unfold fexp64, fexp, emin, prec, emax. lia. Qed.

Lemma fexp64_succ (d : Z) : (fexp64 (d + 1) <= fexp64 d + 1)%Z.
Proof. unfold fexp64, fexp, emin, prec, emax. lia. Qed.

Lemma fexp64_idem (d : Z) : (fexp64 (fexp64 d) <= fexp64 d)%Z.
Proof. unfold fexp64, fexp, emin, prec, emax. lia. Qed.

(** ** Binary digits *)

Lemma digits2_pos_bounds (p : positive) :
  (2 ^ (Zpos (digits2_pos p) - 1) <= Zpos p < 2 ^ Zpos (digits2_pos p))%Z.
Proof.
  induction p as [p IH|p IH|]; simpl; [| |lia];
    pose proof (Pos2Z.is_pos (digits2_pos p)); rewrite Pos2Z.inj_succ;
    replace (Z.succ (Zpos (digits2_pos p)) - 1)%Z with (Zpos (digits2_pos p)) by lia;
    rewrite Z.pow_succ_r by lia;
    assert (2 ^ Zpos (digits2_pos p) = 2 * 2 ^ (Zpos (digits2_pos p) - 1))%Z
      by (rewrite <- Z.pow_succ_r by lia; f_equal; lia);
    lia.
Qed.

Lemma Zdigits2_le (q k : Z) : (0 <= q < 2 ^ k)%Z -> (Zdigits2 q <= Z.max k 0)%Z.
Proof.
  intros Hq. destruct q as [|p|p]; simpl; [lia| |lia].
  pose proof (digits2_pos_bounds p).
  destruct (Z.le_gt_cases (Zpos (digits2_pos p)) k) as [|Hlt]; [lia|].
  assert (2 ^ k <= 2 ^ (Zpos (digits2_pos p) - 1))%Z by (apply Z.pow_le_mono_r; lia).
  lia.
Qed.

(** ** Shifting right *)

Lemma shr_1_spec (mrs : shr_record) :
  (0 <= shr_m mrs)%Z -> shr_m (shr_1 mrs) = (shr_m mrs / 2)%Z.
Proof.
  destruct mrs as [[|[p|p|]|p] r s]; simpl; intros H; try lia; try reflexivity.
  - rewrite Pos2Z.inj_xI. apply Z.div_unique with 1%Z; lia.
  - rewrite Pos2Z.inj_xO. apply Z.div_unique with 0%Z; lia.
Qed.

Lemma iter_shr_1_spec (p : positive) (mrs : shr_record) :
  (0 <= shr_m mrs)%Z ->
  shr_m (iter_pos shr_1 p mrs) = (shr_m mrs / 2 ^ Zpos p)%Z.
Proof.
  revert mrs. induction p as [p IH|p IH|]; intros mrs Hm; simpl.
  - assert (Hp : (0 < 2 ^ Zpos p)%Z) by (apply Z.pow_pos_nonneg; lia).
    pose proof (shr_1_spec mrs Hm) as H1.
    assert (H2 := IH (shr_1 mrs) ltac:(rewrite H1; apply Z.div_pos; lia)).
    rewrite IH, H2, H1 by (rewrite H2, H1; apply Z.div_pos; [apply Z.div_pos|]; lia).
    rewrite !Z.div_div by lia. f_equal.
    rewrite (Pos2Z.inj_xI p). replace (2 * Zpos p + 1)%Z with (Zpos p + Zpos p + 1)%Z by lia.
    rewrite !Z.pow_add_r by lia. ring.
  - assert (Hp : (0 < 2 ^ Zpos p)%Z) by (apply Z.pow_pos_nonneg; lia).
    assert (H2 := IH mrs Hm).
    rewrite IH, H2 by (rewrite H2; apply Z.div_pos; lia).
    rewrite Z.div_div by lia. f_equal.
    rewrite (Pos2Z.inj_xO p). replace (2 * Zpos p)%Z with (Zpos p + Zpos p)%Z by lia.
    rewrite !Z.pow_add_r by lia. ring.
  - rewrite shr_1_spec by assumption. reflexivity.
Qed.

Lemma shr_spec (mrs : shr_record) (e n : Z) :
  (0 <= shr_m mrs)%Z ->
  shr_m (fst (shr mrs e n)) = (shr_m mrs / 2 ^ Z.max n 0)%Z /\
  snd (shr mrs e n) = (e + Z.max n 0)%Z.
Proof.
  intros Hm. destruct n as [|p|p]; simpl.
  - rewrite Z.max_id, Z.pow_0_r, Z.div_1_r. split; lia.
  - rewrite Z.max_l, iter_shr_1_spec by lia. split; lia.
  - rewrite Z.max_r, Z.pow_0_r, Z.div_1_r by lia. split; lia.
Qed.

Lemma shr_fexp_spec (m e : Z) (l : location) :
  (0 <= m)%Z ->
  let n := Z.max (fexp64 (Zdigits2 m + e) - e) 0 in
  shr_m (fst (shr_fexp prec emax m e l)) = (m / 2 ^ n)%Z /\
  snd (shr_fexp prec emax m e l) = (e + n)%Z.
Proof.
  intros Hm n. unfold shr_fexp.
  assert (shr_m (shr_record_of_loc m l) = m) as Hl by (destruct l as [|[]]; reflexivity).
  pose proof (shr_spec (shr_record_of_loc m l) e (fexp prec emax (Zdigits2 m + e) - e)) as H.
  rewrite Hl in H. exact (H Hm).
Qed.

(** ** The rounding error of [binary_round_aux] *)

Lemma rne_cases (m : Z) (l : location) :
  round_nearest_even m l = m \/ round_nearest_even m l = (m + 1)%Z.
Proof. destruct l as [|[]]; simpl; try destruct (Z.even m); auto. Qed.

Lemma div_pow2_digits (mx : positive) (n : Z) :
  (0 <= n)%Z -> (Zpos mx / 2 ^ n < 2 ^ Z.max (Zpos (digits2_pos mx) - n) 0)%Z.
Proof.
  intros Hn. pose proof (digits2_pos_bounds mx).
  assert (0 < 2 ^ n)%Z by (apply Z.pow_pos_nonneg; lia).
  destruct (Z.le_gt_cases n (Zpos (digits2_pos mx))).
  - rewrite Z.max_l by lia. apply Z.div_lt_upper_bound; [lia|].
    rewrite <- Z.pow_add_r by lia. replace (n + _)%Z with (Zpos (digits2_pos mx)) by lia. lia.
  - assert (2 ^ Zpos (digits2_pos mx) <= 2 ^ n)%Z by (apply Z.pow_le_mono_r; lia).
    rewrite Z.max_r, Z.div_small by lia. simpl. lia.
Qed.

(** The integer core of the error bound: a truncation to [P], a rounding
    up by at most one unit, and a second truncation by at most one bit. *)
Lemma round_err_Z (mx q1 q2 q3 P Q2 : Z) :
  (0 < P)%Z -> (Q2 = 1 \/ Q2 = 2)%Z -> (P * q1 <= mx < P * (q1 + 1))%Z ->
  (q2 = q1 \/ q2 = q1 + 1)%Z -> (Q2 * q3 <= q2 < Q2 * (q3 + 1))%Z ->
  (Z.abs (q3 * Q2 * P - mx) <= 4 * P)%Z.
Proof. intros HP [-> | ->] Hq1 Hq2 Hq3; nia. Qed.

Lemma Qabs_scale (z : Z) (c : Q) : 0 < c -> Qabs (inject_Z z * c) == inject_Z (Z.abs z) * c.
Proof.
  intros Hc. rewrite Qabs_Qmult, (Qabs_pos c) by lra.
  unfold inject_Z. rewrite <- Zabs_Qabs. reflexivity.
Qed.

Lemma shr_nonpos (mrs : shr_record) (e n : Z) : (n <= 0)%Z -> shr mrs e n = (mrs, e).
Proof. destruct n; simpl; reflexivity || lia. Qed.

(** The bound on the error of rounding [mx * 2^ex], whose binary
    magnitude is [D]: none when [fexp D <= ex] (the value is
    representable), otherwise less than four units in the last place. *)
Definition round_err (D ex : Z) : Q :=
  if (fexp64 D <=? ex)%Z then 0 else pw (fexp64 D + 2).

(** The second shift of [binary_round_aux], after rounding up, is by at
    most one bit. *)
Lemma second_shift_le1 (mx : positive) (ex q2 : Z) :
  (ex < fexp64 (Zpos (digits2_pos mx) + ex))%Z ->
  (0 <= q2 <= Zpos mx / 2 ^ (fexp64 (Zpos (digits2_pos mx) + ex) - ex) + 1)%Z ->
  (fexp64 (Zdigits2 q2 + fexp64 (Zpos (digits2_pos mx) + ex)) - fexp64 (Zpos (digits2_pos mx) + ex) <= 1)%Z.
Proof.
  set (D := (Zpos (digits2_pos mx) + ex)%Z). intros HB Hq2.
  assert (HD : D = (Zpos (digits2_pos mx) + ex)%Z) by reflexivity. clearbody D.
  pose proof (div_pow2_digits mx (fexp64 D - ex) ltac:(lia)) as Hq1.
  set (k := Z.max (Zpos (digits2_pos mx) - (fexp64 D - ex)) 0) in Hq1.
  assert (Hk : k = Z.max (Zpos (digits2_pos mx) - (fexp64 D - ex)) 0) by reflexivity.
  clearbody k. assert (0 <= k)%Z by lia.
  assert (2 ^ k + 2 ^ k = 2 ^ (k + 1))%Z by (rewrite Z.pow_add_r by lia; simpl; lia).
  assert (Zdigits2 q2 <= Z.max (k + 1) 0)%Z by (apply Zdigits2_le; lia).
  pose proof (fexp64_mono (Zdigits2 q2 + fexp64 D) (Z.max (D + 1) (fexp64 D + 1)) ltac:(lia)).
  pose proof (fexp64_succ D). pose proof (fexp64_idem D).
  pose proof (fexp64_succ (fexp64 D)).
  destruct (Z.max_spec (D + 1) (fexp64 D + 1)) as [[_ E]|[_ E]]; rewrite E in *; lia.
Qed.

Lemma binary_round_aux_spec (mx : positive) (ex : Z) :
  (Zpos (digits2_pos mx) + ex < emax)%Z -> (ex <= emax - prec)%Z ->
  nonneg_finite (binary_round_aux prec emax false (Zpos mx) ex loc_Exact) /\
  Qabs (fval (binary_round_aux prec emax false (Zpos mx) ex loc_Exact)
        - inject_Z (Zpos mx) * pw ex)
    <= round_err (Zpos (digits2_pos mx) + ex) ex.
Proof.
  intros HD Hex. unfold round_err.
  set (D := (Zpos (digits2_pos mx) + ex)%Z) in *.
  destruct (Z.leb_spec (fexp64 D) ex) as [HA|HB].
  - (* representable: both shifts are empty *)
    assert (Hs : shr_fexp prec emax (Zpos mx) ex loc_Exact =
                 (Build_shr_record (Zpos mx) false false, ex))
      by (apply shr_nonpos; change (fexp64 D - ex <= 0)%Z; lia).
    assert (binary_round_aux prec emax false (Zpos mx) ex loc_Exact = S754_finite false mx ex)
      as ->.
    { unfold binary_round_aux. rewrite Hs. cbn -[Z.leb shr_fexp]. rewrite Hs.
      cbn -[Z.leb]. destruct (Z.leb_spec ex (emax - prec)); [reflexivity | lia]. }
    split; [exact I|].
    change (fval (S754_finite false mx ex)) with (inject_Z (Zpos mx) * pw ex).
    unfold Qminus. rewrite Qplus_opp_r. apply Qle_refl.
  - (* rounded: a shift by [n1 = fexp D - ex] bits, rounding, a shift by [n2 <= 1] *)
    replace (fexp64 D <=? ex)%Z with false by (symmetry; apply Z.leb_gt; lia).
    unfold binary_round_aux.
    destruct (shr_fexp prec emax (Zpos mx) ex loc_Exact) as [mrs1 e1] eqn:E1.
    pose proof (shr_fexp_spec (Zpos mx) ex loc_Exact ltac:(lia)) as [Hq1 He1].
    rewrite E1 in Hq1, He1. cbn [fst snd Zdigits2] in Hq1, He1. fold D in Hq1, He1.
    rewrite Z.max_l in Hq1, He1 by lia.
    assert (HP : (0 < 2 ^ (fexp64 D - ex))%Z) by (apply Z.pow_pos_nonneg; lia).
    pose proof (Z.mul_div_le (Zpos mx) _ HP). pose proof (Z.mul_succ_div_gt (Zpos mx) _ HP).
    assert (0 <= shr_m mrs1)%Z by (rewrite Hq1; apply Z.div_pos; lia).
    pose proof (rne_cases (shr_m mrs1) (loc_of_shr_record mrs1)) as Hq2.
    set (q2 := round_nearest_even (shr_m mrs1) (loc_of_shr_record mrs1)) in *.
    cbv beta iota.
    destruct (shr_fexp prec emax q2 e1 loc_Exact) as [mrs3 e3] eqn:E3.
    pose proof (shr_fexp_spec q2 e1 loc_Exact ltac:(lia)) as [Hq3 He3].
    rewrite E3 in Hq3, He3. cbn [fst snd] in Hq3, He3.
    assert (Hb : (0 <= q2 <= Zpos mx / 2 ^ (fexp64 D - ex) + 1)%Z) by lia.
    pose proof (second_shift_le1 mx ex q2 HB Hb) as Hn2. fold D in Hn2.
    replace e1 with (fexp64 D) in Hq3, He3 by lia.
    set (n2 := Z.max (fexp64 (Zdigits2 q2 + fexp64 D) - fexp64 D) 0) in *.
    assert (Hn2' : n2 = 0%Z \/ n2 = 1%Z) by lia. clearbody n2.
    assert (HQ2 : (2 ^ n2 = 1 \/ 2 ^ n2 = 2)%Z) by (destruct Hn2' as [-> | ->]; auto).
    assert (0 < 2 ^ n2)%Z by lia.
    pose proof (Z.mul_div_le q2 _ ltac:(eassumption)). pose proof (Z.mul_succ_div_gt q2 (2 ^ n2) ltac:(lia)).
    assert (Hmax : (fexp64 D <= emax - prec - 1)%Z)
      by (unfold fexp64, fexp, emin, prec, emax in *; lia).
    cbv beta iota. rewrite <- Hq3 in *.
    assert (Hv : nonneg_finite
        match shr_m mrs3 with
        | 0%Z => S754_zero false
        | Zpos m => if (e3 <=? emax - prec)%Z then S754_finite false m e3 else S754_infinity false
        | Zneg _ => S754_nan
        end /\
      fval match shr_m mrs3 with
        | 0%Z => S754_zero false
        | Zpos m => if (e3 <=? emax - prec)%Z then S754_finite false m e3 else S754_infinity false
        | Zneg _ => S754_nan
        end == inject_Z (shr_m mrs3) * pw e3).
    { destruct (shr_m mrs3) as [|m3|m3] eqn:Hm3.
      - split; [exact I | simpl; ring].
      - destruct (Z.leb_spec e3 (emax - prec)); [|lia]. split; [exact I | reflexivity].
      - assert (0 <= q2 / 2 ^ n2)%Z by (apply Z.div_pos; lia). lia. }
    destruct Hv as [Hnn Hv]. split; [exact Hnn|]. rewrite Hv, He3.
    replace (fexp64 D + n2)%Z with (ex + (fexp64 D - ex) + n2)%Z by lia.
    rewrite !pw_add, (pw_Z (fexp64 D - ex)), (pw_Z n2) by lia.
    assert (Hpw : pw (fexp64 D) * pw 2 == inject_Z (4 * 2 ^ (fexp64 D - ex)) * pw ex).
    { rewrite <- pw_add. replace (fexp64 D + 2)%Z with (ex + (fexp64 D - ex) + 2)%Z by lia.
      rewrite !pw_add, (pw_Z (fexp64 D - ex)) by lia. rewrite inject_Z_mult.
      assert (Hp2 : pw 2 == inject_Z 4) by reflexivity. rewrite Hp2. ring. }
    rewrite Hpw.
    assert (Hd : inject_Z (shr_m mrs3) * (pw ex * inject_Z (2 ^ (fexp64 D - ex)) * inject_Z (2 ^ n2))
                 - inject_Z (Zpos mx) * pw ex
               == inject_Z (shr_m mrs3 * 2 ^ n2 * 2 ^ (fexp64 D - ex) - Zpos mx) * pw ex)
      by (unfold Z.sub; rewrite inject_Z_plus, inject_Z_opp, !inject_Z_mult; ring).
    rewrite Hd.
    rewrite Qabs_scale by apply pw_pos.
    apply Qmult_le_compat_r; [|apply Qlt_le_weak, pw_pos].
    rewrite <- Zle_Qle. apply (round_err_Z _ (shr_m mrs1) q2); lia.
Qed.

(** ** Left shifts, [binary_round] and [float(n)] *)

Lemma iter_xO_spec (mx d : positive) :
  Zpos (Pos.iter xO mx d) = (Zpos mx * 2 ^ Zpos d)%Z /\
  digits2_pos (Pos.iter xO mx d) = (digits2_pos mx + d)%positive.
Proof.
  induction d as [|d [IH1 IH2]] using Pos.peano_ind.
  - simpl. split; [lia | symmetry; apply Pos.add_1_r].
  - rewrite Pos.iter_succ. simpl. rewrite IH2, Pos.add_succ_r. split; [|reflexivity].
    rewrite Pos2Z.inj_xO, IH1, Pos2Z.inj_succ, Z.pow_succ_r by lia. ring.
Qed.

Lemma binary_round_spec (mx : positive) (ex : Z) :
  (Zpos (digits2_pos mx) + ex < emax)%Z ->
  nonneg_finite (binary_round prec emax false mx ex) /\
  Qabs (fval (binary_round prec emax false mx ex) - inject_Z (Zpos mx) * pw ex)
    <= round_err (Zpos (digits2_pos mx) + ex) ex.
Proof.
  intros HD. unfold binary_round, shl_align. fold (fexp64 (Zpos (digits2_pos mx) + ex)).
  set (D := (Zpos (digits2_pos mx) + ex)%Z) in *.
  assert (Hmax : (fexp64 D <= emax - prec - 1)%Z)
    by (unfold fexp64, fexp, emin, prec, emax in *; lia).
  destruct (fexp64 D - ex)%Z as [|d|d] eqn:Ed; cbv beta iota.
  - apply binary_round_aux_spec; lia.
  - apply binary_round_aux_spec; lia.
  - (* the value is representable: shifted left to exponent [fexp D] *)
    destruct (iter_xO_spec mx d) as [H1 H2].
    pose proof (binary_round_aux_spec (Pos.iter xO mx d) (fexp64 D)) as Hr.
    rewrite H2, Pos2Z.inj_add in Hr.
    assert (Hd : Zpos d = (ex - fexp64 D)%Z) by lia.
    replace (Zpos (digits2_pos mx) + Zpos d + fexp64 D)%Z with D in Hr by lia.
    destruct Hr as [Hnn Herr]; [lia | lia |]. split; [exact Hnn|].
    set (r := binary_round_aux prec emax false (Zpos (Pos.iter xO mx d)) (fexp64 D) loc_Exact) in *.
    unfold round_err in *. rewrite (proj2 (Z.leb_le _ _) (Z.le_refl _)) in Herr.
    replace (fexp64 D <=? ex)%Z with true by (symmetry; apply Z.leb_le; lia).
    rewrite H1, inject_Z_mult, Hd, <- (pw_Z (ex - fexp64 D)) in Herr by lia.
    rewrite <- Qmult_assoc, <- pw_add in Herr.
    replace (ex - fexp64 D + fexp64 D)%Z with ex in Herr by lia. exact Herr.
Qed.

(** [float(n)] is exact for [0 <= n < 2^53]. *)
Lemma of_int_exact (z : Z) :
  (0 <= z < 2 ^ 53)%Z -> nonneg_finite (of_int z) /\ fval (of_int z) == inject_Z z.
Proof.
  intros Hz. destruct z as [|p|p]; [split; [exact I | reflexivity] | | lia].
  unfold of_int, binary_normalize.
  pose proof (digits2_pos_bounds p).
  assert (Hd : (Zpos (digits2_pos p) <= 53)%Z).
  { destruct (Z.le_gt_cases (Zpos (digits2_pos p)) 53); [assumption|].
    assert (2 ^ 53 <= 2 ^ (Zpos (digits2_pos p) - 1))%Z by (apply Z.pow_le_mono_r; lia). lia. }
  destruct (binary_round_spec p 0 ltac:(unfold emax; lia)) as [Hnn Herr].
  split; [exact Hnn|]. unfold round_err in Herr.
  replace (fexp64 (Zpos (digits2_pos p) + 0) <=? 0)%Z with true in Herr
    by (symmetry; apply Z.leb_le; unfold fexp64, fexp, emin, prec, emax; lia).
  assert (pw 0 == 1) as Hp0 by reflexivity. rewrite Hp0, Qmult_1_r in Herr.
  apply Qabs_Qle_condition in Herr. lra.
Qed.

(** ** Multiplication, addition and [int()] on non-negative floats *)

Lemma fval_nonneg (x : float) : nonneg_finite x -> 0 <= fval x.
Proof.
  destruct x as [sx|sx| |sx m e]; simpl; intros H; try lra; try contradiction.
  destruct sx; [contradiction|].
  apply Qmult_le_0_compat; [unfold Qle; simpl; lia | apply Qlt_le_weak, pw_pos].
Qed.

(** A value below [2^K] has binary magnitude at most [K]. *)
Lemma mag_bound (m : positive) (e K : Z) :
  inject_Z (Zpos m) * pw e < pw K -> (Zpos (digits2_pos m) + e <= K)%Z.
Proof.
  intros H. pose proof (digits2_pos_bounds m) as [Hlo _].
  assert (pw (Zpos (digits2_pos m) - 1 + e) < pw K).
  { rewrite pw_add, pw_Z by lia. eapply Qle_lt_trans; [|exact H].
    apply Qmult_le_compat_r; [rewrite <- Zle_Qle; lia | apply Qlt_le_weak, pw_pos]. }
  apply Qpower_lt_compat_l_inv in H0; [lia | reflexivity].
Qed.

Lemma round_err_le (D e K : Z) : (D <= K)%Z -> round_err D e <= pw (fexp64 K + 2).
Proof.
  intros H. unfold round_err. destruct (fexp64 D <=? e)%Z.
  - apply Qlt_le_weak, pw_pos.
  - apply pw_le. pose proof (fexp64_mono D K H). lia.
Qed.

Lemma Qabs_0_le (c : Q) : 0 <= c -> Qabs (0 - 0) <= c.
Proof. intros H. exact H. Qed.

Lemma fmul_spec (x y : float) (K : Z) :
  nonneg_finite x -> nonneg_finite y -> fval x * fval y < pw K -> (K <= emax - prec)%Z ->
  nonneg_finite (fmul x y) /\
  Qabs (fval (fmul x y) - fval x * fval y) <= pw (fexp64 K + 2).
Proof.
  intros Hx Hy HK HKe. pose proof (pw_pos (fexp64 K + 2)).
  destruct x as [sx|sx| |sx mx ex]; [| contradiction | contradiction |
    destruct sx; [contradiction|]];
    (destruct y as [sy|sy| |sy my ey]; [| contradiction | contradiction |
      destruct sy; [contradiction|]]);
    unfold fmul, SFmul; cbn [fval xorb] in HK |- *;
    try (split; [exact I | rewrite ?Qmult_0_l, ?Qmult_0_r; exact (Qlt_le_weak _ _ H)]).
  assert (Hv : inject_Z (Zpos mx) * pw ex * (inject_Z (Zpos my) * pw ey)
               == inject_Z (Zpos (mx * my)) * pw (ex + ey))
    by (rewrite pw_add, Pos2Z.inj_mul, inject_Z_mult; ring).
  rewrite Hv in HK |- *. pose proof (mag_bound _ _ _ HK).
  pose proof (Pos2Z.is_pos (digits2_pos (mx * my))).
  destruct (binary_round_aux_spec (mx * my) (ex + ey)) as [Hnn Herr];
    [unfold emax, prec in *; lia | unfold emax, prec in *; lia |].
  split; [exact Hnn|]. eapply Qle_trans; [exact Herr|]. apply round_err_le. lia.
Qed.

Lemma shl_align_spec (mx : positive) (ex ez : Z) :
  (ez <= ex)%Z -> Zpos (fst (shl_align mx ex ez)) = (Zpos mx * 2 ^ (ex - ez))%Z.
Proof.
  intros H. unfold shl_align. destruct (ez - ex)%Z as [|d|d] eqn:E; simpl.
  - replace (ex - ez)%Z with 0%Z by lia. lia.
  - lia.
  - rewrite (proj1 (iter_xO_spec mx d)). do 2 f_equal. lia.
Qed.

Lemma Qabs_exact (a b c : Q) : a == b -> 0 < c -> Qabs (a - b) <= c.
Proof. intros Hab Hc. rewrite Hab. unfold Qminus. rewrite Qplus_opp_r. exact (Qlt_le_weak _ _ Hc). Qed.

Lemma fadd_spec (x y : float) (K : Z) :
  nonneg_finite x -> nonneg_finite y -> fval x + fval y < pw K -> (K < emax)%Z ->
  nonneg_finite (fadd x y) /\
  Qabs (fval (fadd x y) - (fval x + fval y)) <= pw (fexp64 K + 2).
Proof.
  intros Hx Hy HK HKe. pose proof (pw_pos (fexp64 K + 2)).
  destruct x as [sx|sx| |sx mx ex]; [| contradiction | contradiction |
    destruct sx; [contradiction|]];
    (destruct y as [sy|sy| |sy my ey]; [| contradiction | contradiction |
      destruct sy; [contradiction|]]); unfold fadd, SFadd.
  - destruct sx, sy; (split; [exact I | apply Qabs_exact; [simpl; ring | exact H]]).
  - split; [exact I | apply Qabs_exact; [simpl; ring | exact H]].
  - split; [exact I | apply Qabs_exact; [simpl; ring | exact H]].
  - cbn [fval] in HK |- *. set (ez := Z.min ex ey).
    rewrite (shl_align_spec mx ex ez), (shl_align_spec my ey ez) by lia. cbn [cond_Zopp].
    assert (Hv : inject_Z (Zpos mx) * pw ex + inject_Z (Zpos my) * pw ey
                 == inject_Z (Zpos mx * 2 ^ (ex - ez) + Zpos my * 2 ^ (ey - ez)) * pw ez).
    { replace ex with (ez + (ex - ez))%Z at 1 by lia.
      replace ey with (ez + (ey - ez))%Z at 1 by lia.
      rewrite !pw_add, !(pw_Z (_ - ez)) by lia. rewrite inject_Z_plus, !inject_Z_mult. ring. }
    rewrite Hv in HK |- *.
    assert (Ha : (0 < Zpos mx * 2 ^ (ex - ez))%Z)
      by (apply Z.mul_pos_pos; [lia | apply Z.pow_pos_nonneg; lia]).
    assert (Hb : (0 < Zpos my * 2 ^ (ey - ez))%Z)
      by (apply Z.mul_pos_pos; [lia | apply Z.pow_pos_nonneg; lia]).
    destruct (Zpos mx * 2 ^ (ex - ez))%Z as [|pa|pa]; [lia | | lia].
    destruct (Zpos my * 2 ^ (ey - ez))%Z as [|pb|pb]; [lia | | lia].
    cbn [Z.add binary_normalize]. rewrite <- Pos2Z.inj_add in HK |- *.
    pose proof (mag_bound _ _ _ HK).
    destruct (binary_round_spec (pa + pb) ez) as [Hnn Herr]; [lia|].
    split; [exact Hnn|]. eapply Qle_trans; [exact Herr|]. apply round_err_le. lia.
Qed.

(** [int(x)] of a non-negative float is its floor. *)
Lemma py_int_f_floor (x : float) : nonneg_finite x -> py_int_f x = Some (Qfloor (fval x)).
Proof.
  destruct x as [sx|sx| |sx m e]; intros H; try contradiction; [reflexivity|].
  destruct sx; [contradiction|]. cbn [py_int_f fval]. f_equal.
  destruct (Z.leb_spec 0 e) as [He|He].
  - rewrite pw_Z, <- inject_Z_mult, Qfloor_Z by assumption. reflexivity.
  - assert (HP : (0 < 2 ^ (- e))%Z) by (apply Z.pow_pos_nonneg; lia).
    assert (Hq : inject_Z (Zpos m) * pw e == Zpos m # Z.to_pos (2 ^ (- e))).
    { rewrite Qmake_Qdiv, Z2Pos.id by lia. unfold Qdiv. f_equiv.
      replace e with (- (- e))%Z at 1 by lia. unfold pw. rewrite Qpower_opp.
      change ((2 # 1) ^ (- e)) with (pw (- e)). rewrite pw_Z by lia. reflexivity. }
    rewrite Hq. unfold Qfloor. rewrite Z2Pos.id by lia. reflexivity.
Qed.

(** The floor of a value within [1/100] of [k/100]: the quotient
    [k / 100], or one less when [k/100] is an integer approached from
    below. *)
Lemma floor_near (v : Q) (k : Z) :
  (0 <= k)%Z -> Qabs (v - inject_Z k * (1 # 100)) < 1 # 100 ->
  (k / 100 - 1 <= Qfloor v <= k / 100)%Z /\ ((k mod 100 <> 0)%Z -> Qfloor v = (k / 100)%Z).
Proof.
  intros Hk Hv. apply Qabs_Qlt_condition in Hv.
  pose proof (Qfloor_le v) as Hf1. pose proof (Qlt_floor v) as Hf2.
  pose proof (Z.div_mod k 100 ltac:(lia)). pose proof (Z.mod_pos_bound k 100 ltac:(lia)).
  set (f := Qfloor v) in *. set (e := (k / 100)%Z) in *. set (r := (k mod 100)%Z) in *.
  assert (Hk' : inject_Z k == 100 * inject_Z e + inject_Z r)
    by (replace k with (100 * e + r)%Z by lia; rewrite inject_Z_plus, inject_Z_mult; reflexivity).
  rewrite Hk' in Hv. rewrite inject_Z_plus in Hf2.
  assert (Hr : 0 <= inject_Z r <= 99)
    by (change (inject_Z 0 <= inject_Z r <= inject_Z 99); rewrite <- !Zle_Qle; lia).
  change (inject_Z 1) with 1 in Hf2.
  assert (Q1 : inject_Z f < inject_Z (e + 1))
    by (rewrite inject_Z_plus; change (inject_Z 1) with 1; lra).
  assert (Q2 : inject_Z (e - 1) < inject_Z (f + 1))
    by (unfold Z.sub; rewrite !inject_Z_plus, inject_Z_opp; change (inject_Z 1) with 1; lra).
  rewrite <- Zlt_Qlt in Q1, Q2. split; [lia|].
  intros Hr0. assert (Hr1 : 1 <= inject_Z r)
    by (change (inject_Z 1 <= inject_Z r); rewrite <- Zle_Qle; lia).
  assert (Q3 : inject_Z e < inject_Z (f + 1))
    by (rewrite inject_Z_plus; change (inject_Z 1) with 1; lra).
  rewrite <- Zlt_Qlt in Q3. lia.
Qed.


Lemma Qfloor_nonneg (q : Q) : 0 <= q -> (0 <= Qfloor q)%Z.
Proof.
  intros H. pose proof (Qlt_floor q) as Hl. rewrite inject_Z_plus in Hl.
  change (inject_Z 1) with 1 in Hl.
  assert (Hq : inject_Z (-1) < inject_Z (Qfloor q)) by (change (inject_Z (-1)) with (-1); lra).
  rewrite <- Zlt_Qlt in Hq. lia.
Qed.


End Float64.
