(* ===== verification/Render.v ===== *)
(** * Presentation: what a frame draws
    (src/hand_flappy_pro.py, lines 18-21, 34-38, 177, 197, 206-207 and
    238-256).

    Drawing is [screen.blit(surface, (x, y))] onto the window surface,
    shown by [pygame.display.update()] at the end of the frame.  A frame's
    drawing is the list of its blits in program order; the surfaces are
    the four images and the texts rendered by [font.render].  The pixels
    themselves (image files, font shapes) are not modelled. *)

From stdpp Require Import base list strings pretty.
From Stdlib Require Import QArith ZArith Lia.
From S2P Require Import Prelude.

Module Render.

Local Open Scope Z_scope.

(** The colours passed to [font.render]. *)
Definition color := (Z * Z * Z)%type.
Definition white : color := (255, 255, 255).
Definition yellow : color := (255, 255, 0).
Definition red : color := (255, 0, 0).
Definition black : color := (0, 0, 0).

(** The surfaces: [bg], [bird_img], [green_pipe_img], [pipe_img]
    (lines 18-21) and a rendered text (line 38, [font.render]). *)
Inductive image :=
  | BgImg
  | BirdImg
  | GreenPipeImg
  | PipeImg
  | TextImg (s : string) (c : color).

(** [green_pipe_img.get_height()]: the image is scaled to [(70, 400)]
    (line 36). *)
Definition green_pipe_height : Z := 400.

(** [screen.blit(img, (x, y))]; [y] is a float for the bird. *)
Record blit := Blit { b_img : image; b_x : Z; b_y : Q }.

(** [screen.blit(bg, (0,0))] (line 177). *)
Definition bg_blit : blit := Blit BgImg 0 0.

(** [screen.blit(bird_img, (bird_x, bird_y))] (line 197). *)
Definition bird_blit (bird_x : Z) (bird_y : Q) : blit := Blit BirdImg bird_x bird_y.

(** [str(score)] and [f"Score: {score}"]. *)
Definition score_str (score : Z) : string := pretty score.

(** Lines 238-256: the score, the turbo banner, and the game-over
    screen, in the order of the blits. *)
Definition draw_hud (score : Z) (turbo_mode game_over : bool) : list blit :=
  [Blit (TextImg (score_str score) white) (WIDTH / 2) 30%:Q] ++
  (if turbo_mode then [Blit (TextImg "**TURBO**" yellow) (WIDTH - 150) 30%:Q] else []) ++
  (if game_over then
     [Blit (TextImg ("Score: " +:+ score_str score) red) (WIDTH / 2 - 170) (HEIGHT / 2 - 80)%:Q;
      Blit (TextImg "Intelligent Cosumer Technologies" red) (WIDTH / 2 - 170) (HEIGHT / 2 + 40)%:Q;
      Blit (TextImg "Ateeq Ur Rehman - 913901" black) (WIDTH / 2 - 170) (HEIGHT / 2 + 80)%:Q;
      Blit (TextImg "Abdul Hadi - 920846" black) (WIDTH / 2 - 170) (HEIGHT / 2 + 120)%:Q;
      Blit (TextImg "***GAME OVER***" red) (WIDTH / 2 - 170) (HEIGHT / 2 - 40)%:Q;
      Blit (TextImg "Open Palm to Restart" white) (WIDTH / 2 - 170) (HEIGHT / 2)%:Q]
   else []).

(** ** Decidable equality of the drawing commands *)

#[export] Instance image_eq_dec : EqDecision image.
Proof. solve_decision. Defined.

(** Equality of the float coordinate as a value of [Q] (numerator and
    denominator), not up to [==]. *)
#[local] Instance Q_eq_dec : EqDecision Q.
Proof.
  intros [n d] [n' d'].
  destruct (decide (n = n')), (decide (d = d')); [left; congruence | right; congruence ..].
Defined.

#[export] Instance blit_eq_dec : EqDecision blit.
Proof. solve_decision. Defined.

End Render.
