(* ===== verification/Gesture.v ===== *)
(** * Landmark Interpreter: [detect_turbo_gesture] and the finger count
    of [detect_restart] (src/hand_flappy_pro.py, lines 83-106, 152-169).

    A hand is MediaPipe's list of 21 landmarks, of which the program reads
    only the vertical coordinate [y], a Python [float] (a binary64 number,
    [Float64.float]); [<] on floats is [SpecFloat.SFltb], the IEEE
    comparison.  Reading a landmark index past the end of the list raises
    [IndexError] in Python; the model returns [None] there. *)

From stdpp Require Import base list decidable.
From Stdlib Require Import ZArith Lia SpecFloat.
From S2P Require Import Prelude Float64.
Import Float64.

Module Gesture.

(** [hand.landmark[i].y] *)
Record normalized_landmark := Landmark { lm_y : float }.
Record hand := Hand { landmark : list normalized_landmark }.

(** [hands.process(rgb)]: [multi_hand_landmarks] is [None] or an empty
    list when no hand is found; both are the empty list here. *)
Record results := Results { multi_hand_landmarks : list hand }.

Definition fingers : list nat := [8; 12; 16; 20]%nat.
Definition pips : list nat := [6; 10; 14; 18]%nat.

(** The loop [for f,p in zip(fingers,pips): if ... : up += 1]. *)
Fixpoint count_up_loop (h : hand) (fp : list (nat * nat)) (up : nat) : option nat :=
  match fp with
  | [] => Some up
  | (f, p) :: fp' =>
      lf ← landmark h !! f;
      lp ← landmark h !! p;
      count_up_loop h fp' (if SFltb (lm_y lf) (lm_y lp) then S up else up)
  end.

Definition fingers_up (h : hand) : option nat :=
  count_up_loop h (zip fingers pips) 0.

(** The globals [turbo_mode] and [turbo_sound_played]. *)
Record turbo_state := TurboState { turbo_mode : bool; turbo_sound_played : bool }.

Definition detect_turbo_gesture (r : results) (ts : turbo_state)
    : option (turbo_state * list sound) :=
  match multi_hand_landmarks r with
  | [] => Some (ts, [])
  | hand :: _ =>
      up ← fingers_up hand;
      if (up =? 2)%nat then
        Some (TurboState true true,
              if turbo_sound_played ts then [] else [TurboSound])
      else Some (TurboState false false, [])
  end.

(** The classification part of [detect_restart]: [up >= 4]. *)
Definition restart_gesture (r : results) : option bool :=
  match multi_hand_landmarks r with
  | [] => Some false
  | hand :: _ => up ← fingers_up hand; Some (4 <=? up)%nat
  end.

(** [turbo_sound_played] mirrors [turbo_mode]: the two globals are
    always set together. *)
Definition turbo_synced (ts : turbo_state) : Prop :=
  turbo_sound_played ts = turbo_mode ts.

(** Test coordinates: the floats [0.25], [0.5] and [0.75]. *)
Definition y_quarter : float := of_dyadic 1 (-2).
Definition y_half : float := of_dyadic 1 (-1).
Definition y_three_quarters : float := of_dyadic 3 (-2).

(** A test hand: every landmark at mid-height, except the four fingertips,
    raised above their knuckles when the finger is up, and the palm
    centre (landmark 9) at height [palm]. *)
Definition pose_hand (palm : float) (i m r p : bool) : hand :=
  let tip (b : bool) := Landmark (if b then y_quarter else y_three_quarters) in
  let mid := Landmark y_half in
  Hand [mid; mid; mid; mid; mid; mid; mid; mid; tip i; Landmark palm;
        mid; mid; tip m; mid; mid; mid; tip r; mid; mid; mid; tip p].

(** ** Lemmas on the finger count *)

Lemma count_up_loop_bounds h fp up n :
  count_up_loop h fp up = Some n -> (up <= n <= up + length fp)%nat.
Proof.
  revert up. induction fp as [|[f p] fp IH]; intros up; simpl.
  - intros [= ->]. lia.
  - destruct (landmark h !! f), (landmark h !! p); simpl; try discriminate.
    intros Hn. apply IH in Hn. destruct (SFltb _ _); lia.
Qed.

Lemma count_up_loop_None h fp up :
  count_up_loop h fp up = None <->
  Exists (fun fp1 => length (landmark h) <= fst fp1 \/ length (landmark h) <= snd fp1)%nat fp.
Proof.
  revert up. induction fp as [|[f p] fp IH]; intros up; simpl.
  - split; [discriminate | intros H; inversion H].
  - rewrite Exists_cons; simpl.
    destruct (landmark h !! f) eqn:Ef; simpl.
    + apply lookup_lt_Some in Ef.
      destruct (landmark h !! p) eqn:Ep; simpl.
      * apply lookup_lt_Some in Ep. rewrite IH. split; [by right | intros [?|?]; [lia | done]].
      * apply lookup_ge_None in Ep. split; [lia | done].
    + apply lookup_ge_None in Ef. split; [lia | done].
Qed.

Lemma fingers_up_pairs h :
  fingers_up h = count_up_loop h [(8, 6); (12, 10); (16, 14); (20, 18)]%nat 0.
Proof. reflexivity. Qed.

(** A MediaPipe hand (21 landmarks) has a finger count. *)
Lemma fingers_up_Some (h : hand) :
  (21 <= length (landmark h))%nat -> exists n, fingers_up h = Some n.
Proof.
  rewrite fingers_up_pairs. intros Hl.
  destruct (count_up_loop _ _ _) as [n|] eqn:E; [by exists n|].
  apply count_up_loop_None in E. rewrite !Exists_cons, Exists_nil in E. simpl in E. lia.
Qed.

(** C24: the finger count fails with [IndexError] exactly when the hand
    has fewer than 21 landmarks (index 20, the little fingertip, is the
    largest one read); MediaPipe hands, which have 21, never fail. *)
Theorem fingers_up_None_iff (h : hand) :
  fingers_up h = None <-> (length (landmark h) <= 20)%nat.
Proof.
  rewrite fingers_up_pairs, count_up_loop_None, !Exists_cons, Exists_nil; simpl.
  lia.
Qed.

(** The number of raised fingers is at most four. *)
Lemma fingers_up_le_4 (h : hand) (n : nat) :
  fingers_up h = Some n -> (n <= 4)%nat.
Proof. intros H. apply count_up_loop_bounds in H. simpl in H. lia. Qed.

(** ** [detect_turbo_gesture] *)

(** C22: with a hand in view, [detect_turbo_gesture] sets both globals to
    [up == 2] and plays the turbo sound when turbo is entered and
    [turbo_sound_played] was false; it never raises on a hand of 21
    landmarks. *)
Theorem detect_turbo_gesture_hand (r : results) (hd : hand) (rest : list hand)
    (ts : turbo_state) (up : nat) :
  multi_hand_landmarks r = hd :: rest ->
  fingers_up hd = Some up ->
  detect_turbo_gesture r ts =
    Some (TurboState (up =? 2)%nat (up =? 2)%nat,
          if (up =? 2)%nat && negb (turbo_sound_played ts) then [TurboSound] else []).
Proof.
  intros Hr Hup. unfold detect_turbo_gesture. rewrite Hr, Hup. simpl.
  destruct (up =? 2)%nat, (turbo_sound_played ts); reflexivity.
Qed.

Lemma detect_turbo_gesture_hand_witness :
  multi_hand_landmarks (Results [pose_hand y_half true true false false]) =
    pose_hand y_half true true false false :: [] /\
  fingers_up (pose_hand y_half true true false false) = Some 2%nat /\
  detect_turbo_gesture (Results [pose_hand y_half true true false false])
    (TurboState false false) = Some (TurboState true true, [TurboSound]).
Proof.
  split; [reflexivity|]. split; [reflexivity|].
  apply (detect_turbo_gesture_hand (Results [pose_hand y_half true true false false])
           (pose_hand y_half true true false false) [] (TurboState false false) 2);
    reflexivity.
Defined.

Lemma detect_turbo_gesture_synced r ts ts' ev :
  turbo_synced ts -> detect_turbo_gesture r ts = Some (ts', ev) -> turbo_synced ts'.
Proof.
  unfold turbo_synced, detect_turbo_gesture. intros Hs.
  destruct (multi_hand_landmarks r) as [|hd rest]; [by intros [= <- _]|].
  destruct (fingers_up hd) as [up|]; simpl; [|discriminate].
  destruct (up =? 2)%nat; by intros [= <- _].
Qed.

Lemma detect_turbo_gesture_sounds r ts ts' ev :
  detect_turbo_gesture r ts = Some (ts', ev) -> ev = [] \/ ev = [TurboSound].
Proof.
  unfold detect_turbo_gesture.
  destruct (multi_hand_landmarks r) as [|hd rest]; [intros [= _ <-]; by left|].
  destruct (fingers_up hd) as [up|]; simpl; [|discriminate].
  destruct (up =? 2)%nat, (turbo_sound_played ts); intros [= _ <-]; auto.
Qed.

Lemma detect_turbo_gesture_sound_iff r ts ts' ev :
  turbo_synced ts -> detect_turbo_gesture r ts = Some (ts', ev) ->
  (ev = [TurboSound] <-> turbo_mode ts = false /\ turbo_mode ts' = true).
Proof.
  unfold turbo_synced, detect_turbo_gesture. intros Hs.
  destruct (multi_hand_landmarks r) as [|hd rest].
  { intros [= <- <-]. destruct (turbo_mode ts); intuition congruence. }
  destruct (fingers_up hd) as [up|]; simpl; [|discriminate].
  destruct (up =? 2)%nat; intros [= <- <-]; simpl; rewrite ?Hs;
    destruct (turbo_mode ts); intuition congruence.
Qed.

(** C21: the turbo sound is edge-triggered.  From a state where the two
    globals agree, one call plays at most one sound, and plays it exactly
    when [turbo_mode] goes from false to true. *)
Theorem detect_turbo_gesture_edge (r : results) (ts ts' : turbo_state) (ev : list sound) :
  turbo_synced ts ->
  detect_turbo_gesture r ts = Some (ts', ev) ->
  turbo_synced ts' /\
  (ev = [TurboSound] <-> turbo_mode ts = false /\ turbo_mode ts' = true) /\
  (ev = [] \/ ev = [TurboSound]).
Proof.
  intros Hs Hd. split_and!; [by eapply detect_turbo_gesture_synced|
    by eapply detect_turbo_gesture_sound_iff|by eapply detect_turbo_gesture_sounds].
Qed.

Lemma detect_turbo_gesture_edge_witness :
  turbo_synced (TurboState false false) /\
  detect_turbo_gesture (Results [pose_hand y_half true true false false])
    (TurboState false false) = Some (TurboState true true, [TurboSound]) /\
  turbo_synced (TurboState true true).
Proof.
  split; [reflexivity|]. split; [reflexivity|].
  apply (detect_turbo_gesture_edge (Results [pose_hand y_half true true false false])
           (TurboState false false) _ [TurboSound]); reflexivity.
Defined.

(** C23: the restart reading is [up == 4]: all four fingers raised (an
    open palm); it is never true together with the turbo reading. *)
Theorem restart_gesture_hand (r : results) (hd : hand) (rest : list hand) (up : nat) :
  multi_hand_landmarks r = hd :: rest ->
  fingers_up hd = Some up ->
  restart_gesture r = Some (up =? 4)%nat /\ ((up =? 4) && (up =? 2) = false)%nat.
Proof.
  intros Hr Hup. pose proof (fingers_up_le_4 _ _ Hup).
  assert (restart_gesture r = Some (4 <=? up)%nat) as ->
    by (unfold restart_gesture; by rewrite Hr, Hup).
  destruct (Nat.leb_spec 4 up), (Nat.eqb_spec up 4), (Nat.eqb_spec up 2);
    simpl; split; done || lia.
Qed.

Lemma restart_gesture_hand_witness :
  restart_gesture (Results [pose_hand y_half true true true true]) = Some true.
Proof.
  apply (restart_gesture_hand (Results [pose_hand y_half true true true true])
           (pose_hand y_half true true true true) [] 4); reflexivity.
Defined.

End Gesture.
