(* ===== verification/Smoother.v ===== *)
(** * Signal Smoother: [detect_hand_control]
    (src/hand_flappy_pro.py, lines 64-66 and 110-138).

    The camera frame is read, the turbo gesture is detected, and when a
    hand is in view the palm centre (landmark 9) gives a target height
    that is folded into the global [smoothed_y] by an exponential moving
    average, truncated to an integer at every step.  The value returned
    is [smoothed_y] itself, whether or not a hand was seen this frame. *)

From stdpp Require Import base list decidable.
From Stdlib Require Import QArith Qround Qabs Lqa ZArith Lia SpecFloat.
From S2P Require Import Prelude Float64 Gesture.
Import Float64 Gesture.

Module Smoother.

(** [alpha = 0.15] (line 66): the literal denotes the float nearest to
    [15/100], which is the correctly rounded quotient [15.0 / 100.0]. *)
Definition alpha : float := fdiv (of_int 15) (of_int 100).

(** [target_y = int(palm_y * HEIGHT)] (line 130): a float product
    truncated by [int]. *)
Definition target_of (palm_y : float) : option Z := py_int_f (fmul palm_y (of_int HEIGHT)).

(** [smoothed_y = int(alpha * target_y + (1 - alpha) * smoothed_y)]
    (line 132): each int operand is converted to a float, and the two
    products and the sum are rounded to binary64. *)
Definition smooth (target_y smoothed_y : Z) : option Z :=
  py_int_f (fadd (fmul alpha (of_int target_y))
                 (fmul (fsub (of_int 1) alpha) (of_int smoothed_y))).

Arguments target_of : simpl never.
Arguments smooth : simpl never.

(** [ret, frame = cap.read()] followed by [hands.process]: [None] when
    [ret] is false, otherwise the landmark results of the frame. *)
Definition camera := option results.

(** The globals the function reads and writes. *)
Record control_state := ControlState {
  ctl_turbo : turbo_state;
  smoothed_y : Z
}.

(** [detect_hand_control()]: the returned [option Z] is the Python
    return value ([None] or [smoothed_y]); [None] as a whole is an
    exception: [IndexError] on a hand with too few landmarks, or [int()]
    of an infinite float. *)
Definition detect_hand_control (cam : camera) (cs : control_state)
    : option (option Z * control_state * list sound) :=
  match cam with
  | None => Some (None, cs, [])
  | Some res =>
      '(ts, ev) ← detect_turbo_gesture res (ctl_turbo cs);
      match multi_hand_landmarks res with
      | [] => Some (Some (smoothed_y cs), ControlState ts (smoothed_y cs), ev)
      | hd :: _ =>
          palm ← landmark hd !! 9%nat;
          t ← target_of (lm_y palm);
          s ← smooth t (smoothed_y cs);
          Some (Some s, ControlState ts s, ev)
      end
  end.

(** [n] frames at a constant target [t]: the smoothing step iterated. *)
Fixpoint smooth_n (n : nat) (t s : Z) : option Z :=
  match n with
  | O => Some s
  | S n => v ← smooth t s; smooth_n n t v
  end.

(** Every hand of the frame has MediaPipe's 21 landmarks. *)
Definition camera_wf (cam : camera) : Prop :=
  match cam with
  | None => True
  | Some res => Forall (fun h => 21 <= length (landmark h))%nat (multi_hand_landmarks res)
  end.

(** A float in the normalised range [0, 1]. *)
Definition in_unit (x : float) : Prop := nonneg_finite x /\ fval x <= 1.

(** The palm centre of the frame's first hand lies in the normalised
    range [0, 1] (MediaPipe reports a hand partly out of frame with
    coordinates outside it). *)
Definition palm_in_frame (cam : camera) : Prop :=
  forall res hd rest palm,
    cam = Some res -> multi_hand_landmarks res = hd :: rest ->
    landmark hd !! 9%nat = Some palm -> in_unit (lm_y palm).

(** The heights for which the error analysis of line 132 is carried
    out: [0 <= t, s <= 2^20], far beyond the screen's [0..HEIGHT]. *)
Definition in_range (z : Z) : Prop := (0 <= z <= 1048576)%Z.

(** ** The float operations of lines 130 and 132 *)

Lemma alpha_eq : alpha = S754_finite false 5404319552844595 (-55).
Proof. vm_compute. reflexivity. Qed.

Lemma one_minus_alpha_eq : fsub (of_int 1) alpha = S754_finite false 7656119366529843 (-53).
Proof. vm_compute. reflexivity. Qed.

Lemma fval_alpha : fval alpha == 5404319552844595 # 36028797018963968.
Proof. rewrite alpha_eq. reflexivity. Qed.

Lemma fval_one_minus_alpha : fval (fsub (of_int 1) alpha) == 7656119366529843 # 9007199254740992.
Proof. rewrite one_minus_alpha_eq. reflexivity. Qed.

Lemma of_int_range (z : Z) :
  in_range z -> nonneg_finite (of_int z) /\ fval (of_int z) == inject_Z z /\
  0 <= inject_Z z <= 1048576.
Proof.
  unfold in_range. intros Hz.
  destruct (of_int_exact z ltac:(simpl in *; lia)) as [H1 H2]. split; [exact H1|]. split; [exact H2|].
  change 0 with (inject_Z 0). change 1048576 with (inject_Z 1048576). rewrite <- !Zle_Qle. lia.
Qed.

(** Before truncation, line 132 computes [(15 t + 85 s) / 100] to within
    [1/100]: the rounding of [0.15], [1 - 0.15], the two products and the
    sum add up to less than [2^-28]. *)
Lemma smooth_near (t s : Z) :
  in_range t -> in_range s ->
  exists x, smooth t s = py_int_f x /\ nonneg_finite x /\
    Qabs (fval x - inject_Z (15 * t + 85 * s) * (1 # 100)) < 1 # 100.
Proof.
  intros Ht Hs. unfold smooth.
  destruct (of_int_range t Ht) as (Ht1 & Ht2 & Ht3).
  destruct (of_int_range s Hs) as (Hs1 & Hs2 & Hs3).
  assert (Ha : nonneg_finite alpha) by (rewrite alpha_eq; exact I).
  assert (Hb : nonneg_finite (fsub (of_int 1) alpha)) by (rewrite one_minus_alpha_eq; exact I).
  pose proof fval_alpha as Fa. pose proof fval_one_minus_alpha as Fb.
  destruct (fmul_spec alpha (of_int t) 18) as [N1 E1]; [exact Ha | exact Ht1 | | unfold emax, prec; lia |].
  { rewrite Fa, Ht2. change (pw 18) with 262144. lra. }
  destruct (fmul_spec (fsub (of_int 1) alpha) (of_int s) 20) as [N2 E2];
    [exact Hb | exact Hs1 | | unfold emax, prec; lia |].
  { rewrite Fb, Hs2. change (pw 20) with 1048576. lra. }
  change (pw (fexp64 18 + 2)) with (1 # 8589934592) in E1.
  change (pw (fexp64 20 + 2)) with (1 # 2147483648) in E2.
  rewrite Fa, Ht2 in E1. rewrite Fb, Hs2 in E2.
  apply Qabs_Qle_condition in E1, E2.
  destruct (fadd_spec (fmul alpha (of_int t)) (fmul (fsub (of_int 1) alpha) (of_int s)) 21)
    as [N3 E3]; [exact N1 | exact N2 | | unfold emax; lia |].
  { change (pw 21) with 2097152. lra. }
  change (pw (fexp64 21 + 2)) with (1 # 1073741824) in E3.
  apply Qabs_Qle_condition in E3.
  eexists. split; [reflexivity|]. split; [exact N3|].
  apply Qabs_Qlt_condition. rewrite inject_Z_plus, !inject_Z_mult.
  change (inject_Z 15) with 15. change (inject_Z 85) with 85. lra.
Qed.

Local Open Scope Z_scope.

(** Line 132 in binary64 against the exact moving average [15 t + 85 s]
    (in hundredths): the result [v] is its quotient by 100, or one less
    when the quotient is exact. *)
Lemma smooth_quotient (t s : Z) :
  in_range t -> in_range s ->
  exists v, smooth t s = Some v /\ 0 <= v /\
    (100 * v <= 15 * t + 85 * s < 100 * v + 100 \/ 15 * t + 85 * s = 100 * (v + 1)).
Proof.
  intros Ht Hs. destruct (smooth_near t s Ht Hs) as (x & -> & Hx & Hnear).
  assert (Hk : 0 <= 15 * t + 85 * s) by (unfold in_range in *; lia).
  destruct (floor_near (fval x) _ Hk Hnear) as [Hb Hm].
  rewrite py_int_f_floor by exact Hx. eexists. split; [reflexivity|].
  split; [exact (Qfloor_nonneg _ (fval_nonneg x Hx))|].
  pose proof (Z.div_mod (15 * t + 85 * s) 100 ltac:(lia)).
  pose proof (Z.mod_pos_bound (15 * t + 85 * s) 100 ltac:(lia)).
  destruct (Z.eq_dec ((15 * t + 85 * s) mod 100) 0) as [Hr|Hr].
  - lia.
  - specialize (Hm Hr). lia.
Qed.

(** C27: line 132 in binary64 refines the exact integer moving average:
    for heights in range, [int(alpha * t + (1 - alpha) * s)] is the
    quotient [(15 t + 85 s) / 100], except that, when that quotient is
    exact, it may be one less (the float sum falls just below the
    integer). *)
Theorem smooth_spec (t s : Z) :
  in_range t -> in_range s ->
  smooth t s = Some ((15 * t + 85 * s) / 100) \/
  ((15 * t + 85 * s) mod 100 = 0 /\ smooth t s = Some ((15 * t + 85 * s) / 100 - 1)).
Proof.
  intros Ht Hs. destruct (smooth_quotient t s Ht Hs) as (v & -> & _ & Hd).
  assert (Hk : 0 <= 15 * t + 85 * s) by (unfold in_range in *; lia).
  pose proof (Z.div_mod (15 * t + 85 * s) 100 ltac:(lia)).
  pose proof (Z.mod_pos_bound (15 * t + 85 * s) 100 ltac:(lia)).
  destruct Hd as [Hd|Hd]; [left|right; split]; try f_equal; lia.
Qed.

Lemma smooth_spec_witness :
  in_range 13 /\ in_range 13 /\
  (smooth 13 13 = Some ((15 * 13 + 85 * 13) / 100) \/
   ((15 * 13 + 85 * 13) mod 100 = 0 /\ smooth 13 13 = Some ((15 * 13 + 85 * 13) / 100 - 1))).
Proof.
  split_and!; [unfold in_range; lia ..|]. apply smooth_spec; unfold in_range; lia.
Defined.


(** C20: for heights in range the smoothed value stays between the
    previous value and the target, except that a value already at the
    target may drop one unit below it. *)
Theorem smooth_between (t s : Z) :
  in_range t -> in_range s ->
  exists v, smooth t s = Some v /\ Z.min t s - 1 <= v <= Z.max t s /\
    (t <> s -> Z.min t s <= v).
Proof.
  intros Ht Hs. destruct (smooth_quotient t s Ht Hs) as (v & Hv & _ & Hd).
  exists v. split; [exact Hv|]. lia.
Qed.

Lemma smooth_between_witness :
  smooth 700 350 = Some 402 /\ Z.min 700 350 <= 402 <= Z.max 700 350.
Proof.
  destruct (smooth_between 700 350) as (v & Hv & Hb & Hne); [unfold in_range; lia ..|].
  specialize (Hne ltac:(lia)).
  assert (v = 402) as <- by (revert Hv; vm_compute; congruence). split; [exact Hv | lia].
Defined.

(** C15: the smoothed value is stuck wherever the target lies 1 to 6
    units above it, and a fixed point always lies 0 to 6 units below the
    target; at 0 units it is not always fixed: the float sum can fall just below
    it. *)
Theorem smooth_fixpoint (t s : Z) :
  in_range t -> in_range s ->
  (1 <= t - s <= 6 -> smooth t s = Some s) /\ (smooth t s = Some s -> 0 <= t - s <= 6).
Proof.
  intros Ht Hs. destruct (smooth_quotient t s Ht Hs) as (v & Hv & _ & Hd). rewrite Hv.
  split; [intros H; f_equal; lia | intros [= <-]; lia].
Qed.

Lemma smooth_fixpoint_witness : smooth 700 694 = Some 694.
Proof. apply (smooth_fixpoint 700 694); unfold in_range; lia. Defined.

(** A value that the step keeps stays for any number of frames. *)
Lemma smooth_n_fixed (t v : Z) (n : nat) : smooth t v = Some v -> smooth_n n t v = Some v.
Proof.
  intros H. induction n as [|n IH]; [reflexivity|].
  cbn [smooth_n]. rewrite H. cbn [mbind option_bind]. exact IH.
Qed.

(** The iteration read from its last step. *)
Lemma smooth_n_succ_r (t s : Z) (n : nat) :
  smooth_n (S n) t s = (v ← smooth_n n t s; smooth t v).
Proof.
  revert s. induction n as [|n IH]; intros s.
  - cbn [smooth_n mbind option_bind]. by destruct (smooth t s).
  - change (smooth_n (S (S n)) t s) with (w ← smooth t s; smooth_n (S n) t w).
    change (smooth_n (S n) t s) with (w ← smooth t s; smooth_n n t w).
    destruct (smooth t s) as [w|]; cbn [mbind option_bind]; [apply IH|reflexivity].
Qed.

(** C30: a steady hand, held at the height [smoothed_y] already has,
    moves it at most once and by at most one unit, downward: from the
    first frame on the value is [t] or [t - 1] and stays there.  The drop
    does happen: at [t = 13] the float sum is [12.999999999999998] and
    [int] gives 12 (the witness), and so at 101 of the 701 screen
    heights. *)
Theorem smooth_steady_drift (t : Z) :
  in_range t ->
  exists v, (v = t \/ v = t - 1) /\ forall n, (1 <= n)%nat -> smooth_n n t t = Some v.
Proof.
  intros Ht. destruct (smooth_quotient t t Ht Ht) as (v & Hv & H0 & Hd).
  assert (Hvt : v = t \/ v = t - 1) by lia.
  exists v. split; [exact Hvt|]. intros [|n] Hn; [lia|].
  cbn [smooth_n]. rewrite Hv. cbn [mbind option_bind]. apply smooth_n_fixed.
  destruct Hvt as [-> | ->]; [exact Hv|].
  destruct (smooth_quotient t (t - 1) Ht ltac:(unfold in_range in *; lia)) as (w & Hw & _ & Hd').
  rewrite Hw. f_equal. lia.
Qed.

Lemma smooth_steady_drift_witness :
  smooth_n 1 13 13 = Some 12 /\
  exists v, (v = 13 \/ v = 13 - 1) /\ forall n, (1 <= n)%nat -> smooth_n n 13 13 = Some v.
Proof. split; [vm_compute; reflexivity|]. apply smooth_steady_drift. unfold in_range; lia. Defined.

(** C16: held at a constant target above it, the smoothed value never
    decreases and never reaches the target, however many frames pass. *)
Theorem smooth_iter_below (t s : Z) (n : nat) :
  in_range t -> 0 <= s < t -> exists v, smooth_n n t s = Some v /\ s <= v < t.
Proof.
  intros Ht. revert s. induction n as [|n IH]; intros s Hs; [exists s; split; [reflexivity | lia]|].
  destruct (smooth_quotient t s Ht ltac:(unfold in_range in *; lia)) as (v & Hv & _ & Hd).
  destruct (IH v ltac:(lia)) as (w & Hw & Hb). exists w. cbn [smooth_n]. rewrite Hv. cbn [mbind option_bind].
  split; [exact Hw | lia].
Qed.

Lemma smooth_iter_below_witness :
  smooth_n 40 700 350 = Some 694 /\ 350 <= 694 < 700.
Proof.
  destruct (smooth_iter_below 700 350 40) as (v & Hv & Hb); [unfold in_range; lia | lia |].
  assert (v = 694) as <- by (revert Hv; vm_compute; congruence). split; [exact Hv | lia].
Defined.

Lemma smooth_above_step (t s : Z) :
  in_range t -> in_range s -> t - 1 <= s ->
  exists v, smooth t s = Some v /\ in_range v /\ t - 1 <= v /\ (v <= t \/ v < s).
Proof.
  intros Ht Hs H. destruct (smooth_quotient t s Ht Hs) as (v & Hv & H0 & Hd).
  exists v. unfold in_range in *. split; [exact Hv|]. lia.
Qed.

(** From above, the value stays at or above [t - 1] and on screen. *)
Lemma smooth_n_above (t s : Z) (n : nat) :
  in_range t -> in_range s -> t - 1 <= s ->
  exists v, smooth_n n t s = Some v /\ in_range v /\ t - 1 <= v.
Proof.
  intros Ht. revert s. induction n as [|n IH]; intros s Hs H1; [by exists s|].
  destruct (smooth_above_step t s Ht Hs H1) as (v & Hv & Hvr & Hv1 & _).
  cbn [smooth_n]. rewrite Hv. cbn [mbind option_bind]. exact (IH v Hvr Hv1).
Qed.

(** From above, within [s - t] frames the value is at the target or
    one below it. *)
Lemma smooth_iter_above_reach (t s : Z) (n : nat) :
  in_range t -> in_range s -> t <= s -> (Z.to_nat (s - t) <= n)%nat ->
  exists v, smooth_n n t s = Some v /\ t - 1 <= v <= t.
Proof.
  intros Ht Hs Hts. assert (H1 : t - 1 <= s) by lia. clear Hts. revert s Hs H1.
  induction n as [|n IH]; intros s Hs H1 Hn; [exists s; split; [reflexivity | lia]|].
  destruct (smooth_above_step t s Ht Hs H1) as (v & Hv & Hvr & Hv1 & Hv2).
  destruct (IH v Hvr Hv1 ltac:(lia)) as (w & Hw & Hb). exists w. cbn [smooth_n]. rewrite Hv. cbn [mbind option_bind].
  split; [exact Hw | lia].
Qed.

(** C17: from above, the smoothed value decreases by at least one unit
    in every frame in which it is still above the target, never goes
    below [t - 1], and, within [s - t] frames, is at the target or one
    below it, where it stays. *)
Theorem smooth_iter_above (t s : Z) :
  in_range t -> in_range s -> t <= s ->
  (forall n, exists v v', smooth_n n t s = Some v /\ smooth_n (S n) t s = Some v' /\
     t - 1 <= v' /\ (t < v -> v' < v) /\ (v <= t -> v' <= t)) /\
  (forall n, (Z.to_nat (s - t) <= n)%nat -> exists v, smooth_n n t s = Some v /\ t - 1 <= v <= t).
Proof.
  intros Ht Hs Hts. split; [|intros n; exact (smooth_iter_above_reach t s n Ht Hs Hts)].
  intros n. destruct (smooth_n_above t s n Ht Hs ltac:(lia)) as (v & Hv & Hvr & Hv1).
  destruct (smooth_above_step t v Ht Hvr Hv1) as (v' & Hv' & _ & Hv1' & Hv2').
  exists v, v'. rewrite smooth_n_succ_r, Hv. cbn [mbind option_bind].
  split_and!; [done|done|lia|lia|lia].
Qed.

Lemma smooth_iter_above_witness :
  (forall n, exists v v', smooth_n n 13 350 = Some v /\ smooth_n (S n) 13 350 = Some v' /\
     13 - 1 <= v' /\ (13 < v -> v' < v) /\ (v <= 13 -> v' <= 13)) /\
  (forall n, (Z.to_nat (350 - 13) <= n)%nat ->
     exists v, smooth_n n 13 350 = Some v /\ 13 - 1 <= v <= 13).
Proof. apply smooth_iter_above; unfold in_range; lia. Defined.

(** ** [detect_hand_control] *)

(** A palm height in [0, 1] gives a target on screen, in [0, HEIGHT]:
    the float product is within [2^-41] of the exact one. *)
Lemma target_of_range (p : float) :
  in_unit p -> exists t, target_of p = Some t /\ 0 <= t <= HEIGHT.
Proof.
  intros [Hp Hp1]. unfold target_of, HEIGHT.
  destruct (of_int_exact 700 ltac:(lia)) as [H7 F7].
  pose proof (fval_nonneg p Hp).
  destruct (fmul_spec p (of_int 700) 10) as [N E]; [exact Hp | exact H7 | | unfold emax, prec; lia |].
  { rewrite F7. change (pw 10) with 1024%Q. change (inject_Z 700) with 700%Q. lra. }
  rewrite F7 in E. change (pw (fexp64 10 + 2)) with (1 # 2199023255552) in E.
  change (inject_Z 700) with 700%Q in E. apply Qabs_Qle_condition in E.
  rewrite py_int_f_floor by exact N. eexists. split; [reflexivity|].
  split; [exact (Qfloor_nonneg _ (fval_nonneg _ N))|].
  pose proof (Qfloor_le (fval (fmul p (of_int 700)))) as Hf.
  assert (Hq : (inject_Z (Qfloor (fval (fmul p (of_int 700)))) < inject_Z 701)%Q)
    by (change (inject_Z 701) with 701%Q; lra).
  rewrite <- Zlt_Qlt in Hq. lia.
Qed.

(** The test hands hold their palm at mid-frame. *)
Lemma palm_in_frame_pose (i m r p : bool) :
  palm_in_frame (Some (Results [pose_hand y_half i m r p])).
Proof.
  intros res hd rest palm Hc Hr Hp. injection Hc as <-. simpl in Hr.
  injection Hr as <- <-. simpl in Hp. injection Hp as <-. cbn -[target_of smooth].
  split; [exact I | vm_compute; discriminate].
Qed.

Lemma palm_in_frame_no_hand : palm_in_frame (Some (Results [])).
Proof. intros res hd rest palm Hc Hr. injection Hc as <-. discriminate. Qed.

(** C18: without a hand in view [smoothed_y] and the turbo globals are
    left as they are, and the stale [smoothed_y] is still returned as
    the control value (not [None]). *)
Theorem detect_hand_control_no_hand (res : results) (cs : control_state) :
  multi_hand_landmarks res = [] ->
  detect_hand_control (Some res) cs = Some (Some (smoothed_y cs), cs, []).
Proof.
  intros Hr. destruct cs as [ts s]. unfold detect_hand_control, detect_turbo_gesture.
  rewrite Hr. reflexivity.
Qed.

Lemma detect_hand_control_no_hand_witness :
  detect_hand_control (Some (Results [])) (ControlState (TurboState false false) 350)
  = Some (Some 350, ControlState (TurboState false false) 350, []).
Proof. apply detect_hand_control_no_hand. reflexivity. Defined.

(** The turbo globals and the sounds of [detect_hand_control] are those
    of its call to [detect_turbo_gesture]. *)
Lemma detect_hand_control_turbo (res : results) (cs cs' : control_state)
    (hy : option Z) (ev : list sound) :
  detect_hand_control (Some res) cs = Some (hy, cs', ev) ->
  detect_turbo_gesture res (ctl_turbo cs) = Some (ctl_turbo cs', ev).
Proof.
  unfold detect_hand_control.
  destruct (detect_turbo_gesture res _) as [[ts ev']|]; cbn -[target_of smooth]; [|discriminate].
  destruct (multi_hand_landmarks res) as [|hd rest]; [by intros [= _ <- <-]|].
  destruct (landmark hd !! 9%nat); cbn -[target_of smooth]; [|discriminate].
  destruct (target_of _); cbn -[target_of smooth]; [|discriminate].
  destruct (smooth _ _); cbn -[target_of smooth]; [|discriminate]. by intros [= _ <- <-].
Qed.

(** [smoothed_y] stays on screen as long as the palm centre is reported
    inside the frame. *)
Lemma detect_hand_control_keeps_range (cam : camera) (cs cs' : control_state)
    (hy : option Z) (ev : list sound) :
  palm_in_frame cam ->
  0 <= smoothed_y cs <= HEIGHT ->
  detect_hand_control cam cs = Some (hy, cs', ev) ->
  0 <= smoothed_y cs' <= HEIGHT.
Proof.
  intros Hin Hs. unfold detect_hand_control.
  destruct cam as [res|]; [|by intros [= _ <- _]].
  destruct (detect_turbo_gesture res (ctl_turbo cs)) as [[ts ev']|]; cbn -[target_of smooth]; [|discriminate].
  destruct (multi_hand_landmarks res) as [|hd rest] eqn:Hr; [by intros [= _ <- _]|].
  destruct (landmark hd !! 9%nat) as [palm|] eqn:Hp; cbn -[target_of smooth]; [|discriminate].
  destruct (target_of_range _ (Hin res hd rest palm eq_refl Hr Hp)) as (t & -> & Ht).
  cbn -[target_of smooth]. unfold HEIGHT in *.
  destruct (smooth_quotient t (smoothed_y cs)) as (v & -> & Hv & Hd); [unfold in_range; lia ..|].
  intros [= _ <- _]; cbn -[target_of smooth]. lia.
Qed.

(** [detect_hand_control] does not raise on a frame of MediaPipe hands
    whose palm is in the frame, from an on-screen [smoothed_y]. *)
Lemma detect_hand_control_total (cam : camera) (cs : control_state) :
  camera_wf cam -> palm_in_frame cam -> 0 <= smoothed_y cs <= HEIGHT ->
  exists r, detect_hand_control cam cs = Some r.
Proof.
  destruct cam as [res|]; [|intros _ _ _; by eexists].
  intros Hwf Hin Hs. simpl in Hwf.
  destruct (multi_hand_landmarks res) as [|hd rest] eqn:Hm.
  - destruct cs as [ts s]. unfold detect_hand_control, detect_turbo_gesture. rewrite Hm.
    by eexists.
  - inversion Hwf as [|? ? Hhd _]; subst.
    destruct (landmark hd !! 9%nat) as [palm|] eqn:Hp; [|apply lookup_ge_None in Hp; lia].
    destruct (fingers_up_Some hd Hhd) as [up Hup].
    destruct (target_of_range _ (Hin res hd rest palm eq_refl Hm Hp)) as (t & Et & Ht).
    unfold HEIGHT in *.
    destruct (smooth_quotient t (smoothed_y cs)) as (v & Ev & _); [unfold in_range; lia ..|].
    unfold detect_hand_control, detect_turbo_gesture. rewrite Hm, Hup.
    cbn -[target_of smooth]. rewrite ?Hm, Hp.
    cbn -[target_of smooth]. rewrite Et. cbn -[target_of smooth]. rewrite Ev.
    destruct (up =? 2)%nat; eexists; reflexivity.
Qed.

(** C19: on a frame of MediaPipe hands whose palm centre is inside the
    frame, from an on-screen [smoothed_y], [detect_hand_control] does not
    raise and keeps [smoothed_y] on screen, in [0, HEIGHT]. *)
Theorem detect_hand_control_range (cam : camera) (cs : control_state) :
  camera_wf cam -> palm_in_frame cam -> 0 <= smoothed_y cs <= HEIGHT ->
  exists hy cs' ev,
    detect_hand_control cam cs = Some (hy, cs', ev) /\ 0 <= smoothed_y cs' <= HEIGHT.
Proof.
  intros Hwf Hin Hs. destruct (detect_hand_control_total cam cs Hwf Hin Hs) as [[[hy cs'] ev] Hd].
  exists hy, cs', ev. split; [exact Hd|].
  exact (detect_hand_control_keeps_range cam cs cs' hy ev Hin Hs Hd).
Qed.

Lemma detect_hand_control_range_witness :
  exists hy cs' ev,
    detect_hand_control (Some (Results [pose_hand y_half true false false false]))
      (ControlState (TurboState false false) 175) = Some (hy, cs', ev) /\
    0 <= smoothed_y cs' <= HEIGHT.
Proof.
  apply detect_hand_control_range.
  - simpl. repeat constructor.
  - apply palm_in_frame_pose.
  - simpl. unfold HEIGHT. lia.
Defined.

End Smoother.
