(* ===== verification/Flight.v ===== *)
(** * Flight Dynamics: the bird update of the main loop
    (src/hand_flappy_pro.py, lines 40-44 and 183-194).

    When the control value returned by [detect_hand_control] is truthy,
    the velocity is overwritten by a proportional law toward it, with a
    gain that depends on [turbo_mode]; gravity is then added and the
    bird moves by its velocity.  Heights are floats, modelled as exact
    rationals [Q], without the rounding of binary64 (see the header of
    [Prelude]). *)

From stdpp Require Import base list decidable.
From Stdlib Require Import QArith Qround Lqa ZArith Lia.
From S2P Require Import Prelude.

Module Flight.

(** [gravity = 0.5] (line 44). *)
Definition gravity : Q := 1 # 2.

(** The factors of lines 188 and 190. *)
Definition gain (turbo_mode : bool) : Q := if turbo_mode then 26 # 100 else 8 # 100.

(** The globals [bird_y] and [velocity]. *)
Record body := Body { bird_y : Q; velocity : Q }.

(** Lines 186-194, given [hand_y = detect_hand_control()].  Each float
    stored is kept as a reduced fraction ([Qred q == q]), so that long
    runs of the model compute. *)
Definition flight_step (hand_y : option Z) (turbo_mode : bool) (b : body) : body :=
  let v :=
    match hand_y with
    | Some hy => if py_truthy hand_y then (hy%:Q - bird_y b) * gain turbo_mode
                 else velocity b
    | None => velocity b
    end in
  let v := Qred (v + gravity) in
  Body (Qred (bird_y b + v)) v.

(** Bodies with equal rational coordinates. *)
Definition body_equiv (b1 b2 : body) : Prop :=
  (bird_y b1 == bird_y b2)%Q /\ (velocity b1 == velocity b2)%Q.

#[export] Instance body_equiv_equivalence : Equivalence body_equiv.
Proof.
  unfold body_equiv. split.
  - intros b. split; reflexivity.
  - intros b1 b2 [H1 H2]. split; symmetry; assumption.
  - intros b1 b2 b3 [H1 H2] [H3 H4]. split; etransitivity; eassumption.
Qed.

#[export] Instance flight_step_proper :
  Proper (eq ==> eq ==> body_equiv ==> body_equiv) flight_step.
Proof.
  intros hy ? <- t ? <- [y1 v1] [y2 v2] [Hy Hv]; simpl in *.
  unfold flight_step, body_equiv; simpl.
  destruct hy as [z|]; simpl; [destruct (z =? 0)%Z|]; simpl;
    rewrite ?Qred_correct, ?Hy, ?Hv; split; reflexivity.
Qed.

Lemma py_truthy_Some (hy : Z) : hy <> 0%Z -> py_truthy (Some hy) = true.
Proof. intros H. simpl. by destruct (Z.eqb_spec hy 0). Qed.

#[export] Hint Resolve py_truthy_Some : flappy.

(** C14: exactly the control value [0] (the palm at the very top of the
    frame) is falsy for [if hand_y:]: with it the bird moves, from every
    body, as in a frame without a hand, under gravity alone; any other
    value steers. *)
Theorem flight_step_zero_as_none (hy : Z) (turbo_mode : bool) :
  (forall b, flight_step (Some hy) turbo_mode b = flight_step None turbo_mode b) <-> hy = 0%Z.
Proof.
  split; [|intros -> b; reflexivity].
  intros H. destruct (Z.eq_dec hy 0) as [->|Hne]; [done|exfalso].
  specialize (H (Body hy%:Q 1)). apply (f_equal velocity) in H.
  unfold flight_step in H. rewrite py_truthy_Some in H by done. simpl in H.
  apply Qred_eq_iff in H. unfold gravity, gain in H. destruct turbo_mode; lra.
Qed.

(** C13: a truthy control value overwrites the velocity with the
    proportional law [(hand_y - bird_y) * gain] plus gravity, whatever the
    previous velocity was: the law is not an impulse added to it. *)
Theorem flight_step_control (hy : Z) (turbo_mode : bool) (b : body) :
  hy <> 0%Z ->
  body_equiv (flight_step (Some hy) turbo_mode b)
    (Body (bird_y b + ((hy%:Q - bird_y b) * gain turbo_mode + gravity))
          ((hy%:Q - bird_y b) * gain turbo_mode + gravity)).
Proof.
  intros Hne. unfold flight_step, body_equiv. rewrite py_truthy_Some by done. simpl.
  rewrite !Qred_correct. split; reflexivity.
Qed.

Lemma flight_step_control_witness :
  body_equiv (flight_step (Some 200%Z) true (Body 350 7))
    (Body (350 + ((200%Z%:Q - 350) * gain true + gravity))
          ((200%Z%:Q - 350) * gain true + gravity)).
Proof. apply flight_step_control. lia. Defined.

End Flight.
