(* ===== verification/Pipes.v ===== *)
(** * Obstacle Pipeline: [spawn_pipe], the pipe loop of the main loop, the
    off-screen filter and the spawn rule
    (src/hand_flappy_pro.py, lines 46-50, 69-71 and 199-231).

    A pipe is the Python list [[x, height, scored]].  The loop
    [for pipe in pipes] scrolls each pipe, scores it once when the bird
    has passed it, and checks the collision; a collision calls
    [pipes.clear()] on the very list being iterated, which ends the
    iteration, so the pipes after the colliding one are neither moved nor
    scored.  Each pipe visited is drawn at its new position (lines
    206-207), so the pipes after a colliding one are not drawn either. *)

From Stdlib Require Import QArith Qround Lqa ZArith Lia Sorted.
From stdpp Require Import base list decidable.
From S2P Require Import Prelude Render.
Import Render.

Module Pipes.

Local Open Scope Z_scope.

(** Lines 47-49. *)
Definition pipe_gap : Z := 180.
Definition normal_pipe_speed : Z := 5.
Definition turbo_pipe_speed : Z := 10.

(** Width of the pipe image (line 35) and of the bird image (line 34),
    written as the literals [70] and [40] in lines 210, 216 and 227. *)
Definition PIPE_W : Z := 70.
Definition BIRD_W : Z := 40.

(** [[x, height, scored]] *)
Record pipe := Pipe { px : Z; ph : Z; scored : bool }.

(** [spawn_pipe()]: [height = random.randint(150, 400)] is an input. *)
Definition spawn_pipe (height : Z) (pipes : list pipe) : list pipe :=
  pipes ++ [Pipe WIDTH height false].

Definition pipe_speed (turbo_mode : bool) : Z :=
  if turbo_mode then turbo_pipe_speed else normal_pipe_speed.

(** The globals the loop reads and writes. *)
Record loop_state := LoopState {
  ls_bird_x : Z;
  ls_bird_y : Q;
  ls_score : Z;
  ls_game_over : bool;
  ls_gameover_sound_played : bool
}.

(** [bird_x > pipe[0] + 70] (line 210). *)
Definition passed (bird_x : Z) (p : pipe) : bool := px p + PIPE_W <? bird_x.

(** [bird_x + 40 > pipe[0] and bird_x < pipe[0] + 70] (line 216). *)
Definition overlaps_x (bird_x x : Z) : bool := (x <? bird_x + BIRD_W) && (bird_x <? x + PIPE_W).

(** [bird_y < pipe[1] or bird_y > pipe[1] + pipe_gap] (line 217). *)
Definition outside_gap (bird_y : Q) (height : Z) : bool :=
  Qltb bird_y height%:Q || Qltb (height + pipe_gap)%:Q bird_y.

Definition collides (bird_x : Z) (bird_y : Q) (p : pipe) : bool :=
  overlaps_x bird_x (px p) && outside_gap bird_y (ph p).

(** Lines 201-213: scroll the pipe, then score it if it was passed. *)
Definition scroll_and_score (turbo_mode : bool) (p : pipe) (ls : loop_state)
    : pipe * loop_state * list sound :=
  let p1 := Pipe (px p - pipe_speed turbo_mode) (ph p) (scored p) in
  if negb (scored p1) && passed (ls_bird_x ls) p1 then
    (Pipe (px p1) (ph p1) true,
     LoopState (ls_bird_x ls) (ls_bird_y ls) (ls_score ls + 1)
               (ls_game_over ls) (ls_gameover_sound_played ls),
     [ScoreSound])
  else (p1, ls, []).

(** Lines 206-207: the green pipe image above the gap, hanging from
    [pipe[1]], and the pipe image below it. *)
Definition draw_pipe (p : pipe) : list blit :=
  [Blit GreenPipeImg (px p) (ph p - green_pipe_height)%:Q;
   Blit PipeImg (px p) (ph p + pipe_gap)%:Q].

(** Lines 218-224, after a collision. *)
Definition crash (ls : loop_state) : loop_state * list sound :=
  (LoopState 10 (HEIGHT / 2)%:Q (ls_score ls) true true,
   if ls_gameover_sound_played ls then [] else [GameOverSound]).

(** Lines 200-224.  Python's list iterator keeps an index into the list
    object [pipes] and stops as soon as the index is past its current
    end.  The body updates [pipe[0]] and [pipe[2]] in place (the element
    of the shared list) and [pipes.clear()] empties that same list, so
    the next step of the iterator stops.  The moved pipe is drawn before
    it is scored (scoring does not move it).  The results are the list,
    the globals, the sounds played and the blits drawn.  [fuel] bounds
    the iterations; [pipe_loop] gives one more than the length of the
    list. *)
Fixpoint iterate_pipes (fuel : nat) (turbo_mode : bool) (i : nat) (pipes : list pipe)
    (ls : loop_state) : list pipe * loop_state * list sound * list blit :=
  match fuel with
  | O => (pipes, ls, [], [])
  | S fuel' =>
      match pipes !! i with
      | None => (pipes, ls, [], [])
      | Some p =>
          let '(p1, ls1, ev1) := scroll_and_score turbo_mode p ls in
          let '(pipes2, ls2, ev2) :=
            if collides (ls_bird_x ls1) (ls_bird_y ls1) p1
            then let '(ls', ev) := crash ls1 in ([], ls', ev)
            else (<[i := p1]> pipes, ls1, []) in
          let '(pipes3, ls3, ev3, bl3) := iterate_pipes fuel' turbo_mode (S i) pipes2 ls2 in
          (pipes3, ls3, ev1 ++ ev2 ++ ev3, draw_pipe p1 ++ bl3)
      end
  end.

Definition pipe_loop (turbo_mode : bool) (pipes : list pipe) (ls : loop_state)
    : list pipe * loop_state * list sound * list blit :=
  iterate_pipes (S (length pipes)) turbo_mode 0 pipes ls.

(** [pipes = [p for p in pipes if p[0] > -70]] (line 227). *)
Definition filter_pipes (pipes : list pipe) : list pipe :=
  filter (fun p => -PIPE_W < px p) pipes.

(** Lines 229-231. *)
Definition spawn_rule (game_over : bool) (height : Z) (pipes : list pipe) : list pipe :=
  let due := match list.last pipes with
             | None => true
             | Some p => px p <? WIDTH - 250
             end in
  if due && negb game_over then spawn_pipe height pipes else pipes.

(** ** Reference behaviour of the loop

    What the loop does to one pipe when nothing collides: move it left by
    the scroll speed and mark it scored once the bird is past it. *)
Definition advance (bird_x speed : Z) (p : pipe) : pipe :=
  Pipe (px p - speed) (ph p) (scored p || (px p - speed + PIPE_W <? bird_x)).

(** Whether this frame scores the pipe. *)
Definition newly_scored (bird_x speed : Z) (p : pipe) : bool :=
  negb (scored p) && (px p - speed + PIPE_W <? bird_x).

Definition count_newly (bird_x speed : Z) (pipes : list pipe) : Z :=
  Z.of_nat (length (List.filter (newly_scored bird_x speed) pipes)).

Definition add_score (ls : loop_state) (n : Z) : loop_state :=
  LoopState (ls_bird_x ls) (ls_bird_y ls) (ls_score ls + n)
            (ls_game_over ls) (ls_gameover_sound_played ls).

Definition score_sounds (bx sp : Z) (pipes : list pipe) : list sound :=
  repeat ScoreSound (length (List.filter (newly_scored bx sp) pipes)).

(** The drawing of the loop over pipes that do not collide. *)
Definition pipe_blits (bx sp : Z) (pipes : list pipe) : list blit :=
  concat (map (fun p => draw_pipe (advance bx sp p)) pipes).

Definition gameover_sound (ls : loop_state) : list sound :=
  if ls_gameover_sound_played ls then [] else [GameOverSound].

(** ** Spacing of the pipes

    Pipes are created at [x = WIDTH] only once the newest one is left of
    [WIDTH - 250], and all of them scroll by the same amount, so they are
    ordered by position, more than 250 apart, and on screen after the
    filter. *)
Definition spaced (pipes : list pipe) : Prop :=
  StronglySorted (fun p q => px p + 250 < px q) pipes.

Definition pipes_wf (pipes : list pipe) : Prop :=
  spaced pipes /\ Forall (fun p => -PIPE_W < px p <= WIDTH) pipes.

(** The invariant as a boolean test, for concrete lists. *)
Fixpoint spacedb (pipes : list pipe) : bool :=
  match pipes with
  | [] => true
  | p :: rest => forallb (fun q => px p + 250 <? px q) rest && spacedb rest
  end.

Definition pipes_wfb (pipes : list pipe) : bool :=
  spacedb pipes && forallb (fun p => (-PIPE_W <? px p) && (px p <=? WIDTH)) pipes.

Lemma scroll_and_score_spec (turbo_mode : bool) (p : pipe) (ls : loop_state) :
  scroll_and_score turbo_mode p ls =
    (advance (ls_bird_x ls) (pipe_speed turbo_mode) p,
     add_score ls (if newly_scored (ls_bird_x ls) (pipe_speed turbo_mode) p then 1 else 0),
     if newly_scored (ls_bird_x ls) (pipe_speed turbo_mode) p then [ScoreSound] else []).
Proof.
  destruct ls as [bx y sc go pl]. unfold scroll_and_score, advance, newly_scored, passed.
  simpl. destruct (scored p), (px p - pipe_speed turbo_mode + PIPE_W <? bx); simpl;
    unfold add_score; simpl; repeat f_equal; lia.
Qed.

Lemma add_score_add (ls : loop_state) (m n : Z) :
  add_score (add_score ls m) n = add_score ls (m + n).
Proof. unfold add_score. simpl. f_equal. lia. Qed.

Lemma count_newly_cons (bx sp : Z) (p : pipe) (ps : list pipe) :
  count_newly bx sp (p :: ps) =
    (if newly_scored bx sp p then 1 else 0) + count_newly bx sp ps.
Proof.
  unfold count_newly. simpl. destruct (newly_scored bx sp p); simpl; lia.
Qed.

Lemma score_sounds_cons (bx sp : Z) (p : pipe) (ps : list pipe) :
  score_sounds bx sp (p :: ps) =
    (if newly_scored bx sp p then [ScoreSound] else []) ++ score_sounds bx sp ps.
Proof. unfold score_sounds. simpl. by destruct (newly_scored bx sp p). Qed.

Lemma pipe_blits_cons (bx sp : Z) (p : pipe) (ps : list pipe) :
  pipe_blits bx sp (p :: ps) = draw_pipe (advance bx sp p) ++ pipe_blits bx sp ps.
Proof. reflexivity. Qed.

#[export] Hint Rewrite scroll_and_score_spec add_score_add count_newly_cons
  score_sounds_cons pipe_blits_cons : flappy_rw.

Lemma add_score_0 (ls : loop_state) : add_score ls 0 = ls.
Proof. destruct ls. unfold add_score. simpl. f_equal. lia. Qed.

Lemma insert_middle (pre rest : list pipe) (p p1 : pipe) :
  <[length pre := p1]> (pre ++ p :: rest) = (pre ++ [p1]) ++ rest.
Proof.
  rewrite <- app_assoc. rewrite (insert_app_r_alt pre) by lia.
  by rewrite Nat.sub_diag.
Qed.

Lemma add_score_bird_x (ls : loop_state) (n : Z) : ls_bird_x (add_score ls n) = ls_bird_x ls.
Proof. done. Qed.
Lemma add_score_bird_y (ls : loop_state) (n : Z) : ls_bird_y (add_score ls n) = ls_bird_y ls.
Proof. done. Qed.
Lemma add_score_score (ls : loop_state) (n : Z) : ls_score (add_score ls n) = ls_score ls + n.
Proof. done. Qed.
Lemma add_score_played (ls : loop_state) (n : Z) :
  ls_gameover_sound_played (add_score ls n) = ls_gameover_sound_played ls.
Proof. done. Qed.

#[export] Hint Rewrite add_score_bird_x add_score_bird_y add_score_score add_score_played
  : flappy_rw.

(** ** The loop in one scroll mode *)

Section Loop.
Variable turbo_mode : bool.
Local Abbreviation sp := (pipe_speed turbo_mode).

(** The iterator past the end of the list. *)
Lemma iterate_pipes_end (fuel : nat) (i : nat) (pipes : list pipe)
    (ls : loop_state) :
  (length pipes <= i)%nat -> iterate_pipes fuel turbo_mode i pipes ls = (pipes, ls, [], []).
Proof.
  intros Hi. destruct fuel; [done|]. cbn [iterate_pipes].
  by rewrite (proj2 (lookup_ge_None pipes i) Hi).
Qed.

(** One turn of the loop on a pipe that does not collide. *)
Lemma iterate_pipes_pass (fuel : nat) (pre rest : list pipe) (p : pipe)
    (ls : loop_state) :
  collides (ls_bird_x ls) (ls_bird_y ls) (advance (ls_bird_x ls) sp p) = false ->
  iterate_pipes (S fuel) turbo_mode (length pre) (pre ++ p :: rest) ls =
    let '(ps3, ls3, ev3, bl3) :=
      iterate_pipes fuel turbo_mode (length (pre ++ [advance (ls_bird_x ls) sp p]))
        ((pre ++ [advance (ls_bird_x ls) sp p]) ++ rest)
        (add_score ls (if newly_scored (ls_bird_x ls) sp p then 1 else 0)) in
    (ps3, ls3, (if newly_scored (ls_bird_x ls) sp p then [ScoreSound] else []) ++ ev3,
     draw_pipe (advance (ls_bird_x ls) sp p) ++ bl3).
Proof.
  intros Hc. cbn [iterate_pipes]. rewrite list_lookup_middle by done.
  rewrite scroll_and_score_spec. cbv beta iota zeta.
  replace (ls_bird_x (add_score ls _)) with (ls_bird_x ls) by (by destruct ls).
  replace (ls_bird_y (add_score ls _)) with (ls_bird_y ls) by (by destruct ls).
  rewrite Hc, insert_middle, length_app, Nat.add_1_r. simpl.
  destruct (iterate_pipes _ _ _ _ _) as [[[ps3 ls3] ev3] bl3]. done.
Qed.

Lemma iterate_pipes_no_collision (fuel : nat) (pre rest : list pipe)
    (ls : loop_state) :
  (length rest < fuel)%nat ->
  Forall (fun p => collides (ls_bird_x ls) (ls_bird_y ls) (advance (ls_bird_x ls) sp p) = false)
    rest ->
  iterate_pipes fuel turbo_mode (length pre) (pre ++ rest) ls =
    (pre ++ map (advance (ls_bird_x ls) sp) rest,
     add_score ls (count_newly (ls_bird_x ls) sp rest),
     score_sounds (ls_bird_x ls) sp rest,
     pipe_blits (ls_bird_x ls) sp rest).
Proof.
  revert fuel pre ls. induction rest as [|p ps IH]; intros fuel pre ls Hf Hno.
  - rewrite iterate_pipes_end by (rewrite app_nil_r; lia).
    by rewrite !app_nil_r, add_score_0.
  - destruct fuel as [|fuel]; [simpl in Hf; lia|].
    inversion Hno as [|? ? Hp Hps]; subst.
    rewrite iterate_pipes_pass by done.
    rewrite IH by (simpl in Hf; lia || done).
    autorewrite with flappy_rw. by rewrite <- app_assoc.
Qed.

(** C3: when no pipe collides, the loop moves every pipe, scores each
    pipe passed for the first time, adds one point and one score sound
    per such pipe, and keeps the bird and the phase. *)
Theorem pipe_loop_no_collision (pipes : list pipe) (ls : loop_state) :
  Forall (fun p => collides (ls_bird_x ls) (ls_bird_y ls) (advance (ls_bird_x ls) sp p) = false)
    pipes ->
  pipe_loop turbo_mode pipes ls =
    (map (advance (ls_bird_x ls) sp) pipes,
     add_score ls (count_newly (ls_bird_x ls) sp pipes),
     score_sounds (ls_bird_x ls) sp pipes,
     pipe_blits (ls_bird_x ls) sp pipes).
Proof.
  intros Hno. apply (iterate_pipes_no_collision _ []); [lia | done].
Qed.

Lemma iterate_pipes_collision (fuel : nat) (pre mid post : list pipe)
    (p : pipe) (ls : loop_state) :
  (length mid < fuel)%nat ->
  Forall (fun q => collides (ls_bird_x ls) (ls_bird_y ls) (advance (ls_bird_x ls) sp q) = false)
    mid ->
  collides (ls_bird_x ls) (ls_bird_y ls) (advance (ls_bird_x ls) sp p) = true ->
  iterate_pipes fuel turbo_mode (length pre) (pre ++ mid ++ p :: post) ls =
    ([],
     LoopState 10 (HEIGHT / 2)%:Q (ls_score ls + count_newly (ls_bird_x ls) sp (mid ++ [p]))
               true true,
     score_sounds (ls_bird_x ls) sp (mid ++ [p]) ++ gameover_sound ls,
     pipe_blits (ls_bird_x ls) sp (mid ++ [p])).
Proof.
  revert fuel pre ls. induction mid as [|q qs IH]; intros fuel pre ls Hf Hno Hp.
  - destruct fuel as [|fuel]; [simpl in Hf; lia|]. simpl app.
    cbn [iterate_pipes]. rewrite list_lookup_middle by done.
    rewrite scroll_and_score_spec. cbv beta iota zeta.
    autorewrite with flappy_rw. rewrite Hp. unfold crash. cbv beta iota zeta.
    rewrite iterate_pipes_end by (simpl; lia).
    autorewrite with flappy_rw. unfold count_newly, score_sounds, gameover_sound, pipe_blits.
    destruct (newly_scored _ _ _); simpl; rewrite ?app_nil_r; repeat f_equal; lia.
  - destruct fuel as [|fuel]; [simpl in Hf; lia|].
    inversion Hno as [|? ? Hq Hqs]; subst. simpl app.
    rewrite iterate_pipes_pass by done.
    rewrite IH by (simpl in Hf; lia || done).
    unfold gameover_sound. cbn [app]. autorewrite with flappy_rw.
    rewrite app_assoc, Z.add_assoc. reflexivity.
Qed.

(** C4: when the first colliding pipe is [p], the pipes before it are
    moved and scored, [p] is moved and scored, the iteration stops there
    because [pipes.clear()] emptied the list being iterated, the list is
    empty (the pipes already moved included), the bird is put back at
    [(10, HEIGHT // 2)], the game is over, and the game-over sound plays
    unless it already has. *)
Theorem pipe_loop_collision (pre : list pipe) (p : pipe)
    (post : list pipe) (ls : loop_state) :
  Forall (fun q => collides (ls_bird_x ls) (ls_bird_y ls) (advance (ls_bird_x ls) sp q) = false)
    pre ->
  collides (ls_bird_x ls) (ls_bird_y ls) (advance (ls_bird_x ls) sp p) = true ->
  pipe_loop turbo_mode (pre ++ p :: post) ls =
    ([],
     LoopState 10 (HEIGHT / 2)%:Q (ls_score ls + count_newly (ls_bird_x ls) sp (pre ++ [p]))
               true true,
     score_sounds (ls_bird_x ls) sp (pre ++ [p]) ++ gameover_sound ls,
     pipe_blits (ls_bird_x ls) sp (pre ++ [p])).
Proof.
  intros Hpre Hp. unfold pipe_loop.
  apply (iterate_pipes_collision _ [] pre post p ls); [|done..].
  rewrite length_app. simpl. lia.
Qed.

(** Every run of the loop ends in one of the two ways above. *)
Lemma pipe_loop_cases (pipes : list pipe) (ls : loop_state) :
  pipe_loop turbo_mode pipes ls =
    (map (advance (ls_bird_x ls) sp) pipes,
     add_score ls (count_newly (ls_bird_x ls) sp pipes),
     score_sounds (ls_bird_x ls) sp pipes,
     pipe_blits (ls_bird_x ls) sp pipes) \/
  exists pre p post,
    pipes = pre ++ p :: post /\
    collides (ls_bird_x ls) (ls_bird_y ls) (advance (ls_bird_x ls) sp p) = true /\
    pipe_loop turbo_mode pipes ls =
      ([],
       LoopState 10 (HEIGHT / 2)%:Q (ls_score ls + count_newly (ls_bird_x ls) sp (pre ++ [p]))
                 true true,
       score_sounds (ls_bird_x ls) sp (pre ++ [p]) ++ gameover_sound ls,
     pipe_blits (ls_bird_x ls) sp (pre ++ [p])).
Proof.
    destruct (first_true_split
              (fun q => collides (ls_bird_x ls) (ls_bird_y ls) (advance (ls_bird_x ls) sp q))
              pipes) as [Hno|(pre & p & post & -> & Hpre & Hp)].
  - left. apply (iterate_pipes_no_collision _ []); [lia|done].
  - right. exists pre, p, post. split_and!; [done|done|]. unfold pipe_loop.
    apply (iterate_pipes_collision _ [] pre post p ls); [|done..].
    rewrite length_app. simpl. lia.
Qed.

End Loop.

Lemma pipe_loop_no_collision_witness :
  pipe_loop false [Pipe 500 300 false; Pipe 20 250 false] (LoopState 100 350 0 false false) =
    (map (advance 100 (pipe_speed false)) [Pipe 500 300 false; Pipe 20 250 false],
     add_score (LoopState 100 350 0 false false)
       (count_newly 100 (pipe_speed false) [Pipe 500 300 false; Pipe 20 250 false]),
     score_sounds 100 (pipe_speed false) [Pipe 500 300 false; Pipe 20 250 false],
     pipe_blits 100 (pipe_speed false) [Pipe 500 300 false; Pipe 20 250 false]).
Proof.
  apply (pipe_loop_no_collision false [Pipe 500 300 false; Pipe 20 250 false]
           (LoopState 100 350 0 false false)).
  repeat constructor.
Defined.

(** The collision example of the specification: the bird at
    [(100, 500)] against a pipe whose gap is [[150, 330]]. *)
Lemma pipe_loop_collision_witness :
  pipe_loop false ([] ++ Pipe 100 150 false :: [Pipe 400 200 false])
    (LoopState 100 500 3 false false) =
    ([],
     LoopState 10 (HEIGHT / 2)%:Q (3 + count_newly 100 (pipe_speed false) ([] ++ [Pipe 100 150 false]))
               true true,
     score_sounds 100 (pipe_speed false) ([] ++ [Pipe 100 150 false]) ++
       gameover_sound (LoopState 100 500 3 false false),
     pipe_blits 100 (pipe_speed false) ([] ++ [Pipe 100 150 false])).
Proof.
  apply (pipe_loop_collision false [] (Pipe 100 150 false) [Pipe 400 200 false]
           (LoopState 100 500 3 false false)); reflexivity || constructor.
Defined.

Lemma pipes_wfb_spec (pipes : list pipe) : pipes_wfb pipes = true <-> pipes_wf pipes.
Proof.
  unfold pipes_wfb, pipes_wf, spaced. rewrite andb_true_iff, forallb_forall, Forall_forall.
  assert (spacedb pipes = true <-> StronglySorted (fun p q => px p + 250 < px q) pipes) as ->.
  { induction pipes as [|p ps IH]; simpl; [split; constructor|].
    rewrite andb_true_iff, forallb_forall, IH. split.
    - intros [Hf Hs]. constructor; [done|]. apply Forall_forall.
      intros q Hq. apply Z.ltb_lt. by apply Hf.
    - intros Hs. inversion Hs as [|? ? Hs' Hf]; subst. split; [|done].
      intros q Hq. apply Z.ltb_lt. by apply (proj1 (Forall_forall _ _) Hf). }
  apply and_iff_compat_l. apply forall_proper. intros p.
  rewrite andb_true_iff, Z.ltb_lt, Z.leb_le. tauto.
Qed.

Lemma spaced_map_advance (bx sp : Z) (pipes : list pipe) :
  spaced pipes -> spaced (map (advance bx sp) pipes).
Proof.
  induction 1 as [|p ps Hps IH Hp]; simpl; constructor; [done|].
  apply Forall_map. eapply Forall_impl; [|exact Hp]. simpl. lia.
Qed.

Lemma filter_pipes_wf (bx sp : Z) (pipes : list pipe) :
  0 <= sp -> pipes_wf pipes -> pipes_wf (filter_pipes (map (advance bx sp) pipes)).
Proof.
  intros Hsp [Hs Hr]. split.
  - apply StronglySorted_filter. by apply spaced_map_advance.
  - apply Forall_forall. intros q Hq. apply list_elem_of_In in Hq.
    apply list_elem_of_filter in Hq as [Hq Hin]. apply list_elem_of_In in Hin.
    apply in_map_iff in Hin as (p & <- & Hin).
    pose proof (proj1 (Forall_forall _ _) Hr p Hin). simpl in *. lia.
Qed.

Lemma pipe_speed_nonneg (turbo_mode : bool) : 0 <= pipe_speed turbo_mode.
Proof. unfold pipe_speed. by destruct turbo_mode. Qed.

Lemma spawn_rule_wf (game_over : bool) (height : Z) (pipes : list pipe) :
  pipes_wf pipes -> pipes_wf (spawn_rule game_over height pipes).
Proof.
  intros [Hs Hr]. unfold spawn_rule.
  destruct (list.last pipes) as [l|] eqn:Hl.
  - destruct (Z.ltb_spec (px l) (WIDTH - 250)), game_over; simpl; try done.
    apply last_Some in Hl as [init ->].
    apply Forall_app in Hr as [Hr1 Hr2]. inversion Hr2; subst.
    unfold spawn_pipe. split.
    + apply StronglySorted_snoc; [done|]. apply Forall_app. split.
      * apply StronglySorted_snoc_inv in Hs as [_ Hx].
        eapply Forall_impl; [|exact Hx]. simpl. lia.
      * constructor; [simpl; lia|done].
    + apply Forall_app. split; [by apply Forall_app|]. constructor; [|done].
      simpl. unfold WIDTH, PIPE_W. lia.
  - apply last_None in Hl as ->. destruct game_over; simpl; [done|].
    split; repeat constructor; simpl; unfold WIDTH, PIPE_W; lia.
Qed.

#[export] Hint Resolve pipe_speed_nonneg filter_pipes_wf spawn_rule_wf : flappy.

(** C6: the spacing invariant holds after the pipe phase of every frame
    (loop, filter and spawn), whatever the mode, the bird and the random
    height. *)
Theorem pipes_phase_wf (turbo_mode game_over : bool) (height : Z) (pipes : list pipe)
    (ls : loop_state) :
  pipes_wf pipes ->
  pipes_wf (spawn_rule game_over height (filter_pipes (pipe_loop turbo_mode pipes ls).1.1.1)).
Proof.
  intros Hwf. apply spawn_rule_wf.
  destruct (pipe_loop_cases turbo_mode pipes ls) as [->|(pre & p & post & _ & _ & ->)]; simpl.
  - auto with flappy.
  - split; constructor.
Qed.

Lemma pipes_phase_wf_witness :
  pipes_wf (spawn_rule false 200 (filter_pipes
    (pipe_loop false [Pipe 700 300 false] (LoopState 100 350 0 false false)).1.1.1)).
Proof.
  apply pipes_phase_wf, pipes_wfb_spec. reflexivity.
Defined.

(** Spaced pipes inside a window [(lo, hi]] number fewer than
    [(hi - lo) / 250 + 1]. *)
Lemma spaced_window_length (lo hi : Z) (pipes : list pipe) :
  spaced pipes -> Forall (fun p => lo < px p <= hi) pipes ->
  pipes = [] \/ 250 * Z.of_nat (length pipes) < hi - lo + 250.
Proof.
  intros Hs. revert lo. induction Hs as [|p ps Hps IH Hp]; intros lo Hr; [by left|right].
  simpl length.
  inversion Hr as [|? ? Hpr Hpsr]; subst.
  assert (Forall (fun q => px p + 250 < px q <= hi) ps) as Hw.
  { apply Forall_forall. intros q Hq.
    pose proof (proj1 (Forall_forall _ _) Hp q Hq).
    pose proof (proj1 (Forall_forall _ _) Hpsr q Hq). simpl in *. lia. }
  destruct (IH _ Hw) as [->|IH']; simpl; lia.
Qed.

(** At most five well-spaced pipes fit on screen. *)
Lemma pipes_wf_length (pipes : list pipe) :
  pipes_wf pipes -> (length pipes <= 5)%nat.
Proof.
  intros [Hs Hr]. destruct (spaced_window_length _ _ _ Hs Hr) as [->|?]; [simpl; lia|].
  unfold WIDTH, PIPE_W in *. lia.
Qed.

(** At most one well-spaced pipe overlaps the bird horizontally. *)
Lemma pipes_wf_one_overlap (bird_x : Z) (pipes : list pipe) :
  pipes_wf pipes ->
  (length (filter (fun p => overlaps_x bird_x (px p) = true) pipes) <= 1)%nat.
Proof.
  intros [Hs _].
  assert (Forall (fun p => bird_x - PIPE_W < px p <= bird_x + BIRD_W)
            (filter (fun p => overlaps_x bird_x (px p) = true) pipes)) as Hw.
  { apply Forall_forall. intros q Hq. apply list_elem_of_In in Hq.
    apply list_elem_of_filter in Hq as [Hq _]. unfold overlaps_x in Hq.
    apply andb_prop in Hq as [H1 H2]. apply Z.ltb_lt in H1, H2. lia. }
  destruct (spaced_window_length _ _ _ (StronglySorted_filter _ _ _ Hs) Hw) as [->|?];
    [simpl; lia|].
  unfold PIPE_W, BIRD_W in *. lia.
Qed.

End Pipes.
