(* ===== verification/Game.v ===== *)
(** * Collision and game state machine: the main loop
    (src/hand_flappy_pro.py, lines 30-31, 40-66, 73-80, 141-169, 171-262).

    The globals of the program form the record [game]; one iteration of
    [while running:] is [tick], which runs, in the order of the source,
    the event loop, the flight update (when the game is not over), the
    pipe loop, the filter and spawn rule, the ground/ceiling check and
    the restart check.  The camera frames and the random pipe heights of
    a frame are its inputs; [None] is an [IndexError] raised on a hand
    with too few landmarks. *)

From stdpp Require Import base list decidable.
From Stdlib Require Import QArith Qround Lqa ZArith Lia.
From S2P Require Import Prelude Render Gesture Smoother Flight Pipes.
Import Render Gesture Smoother Flight Pipes.

Module Game.

(** The globals of the program. *)
Record game := Game {
  bird_x : Z;
  bird_y : Q;
  velocity : Q;
  pipes : list pipe;
  score : Z;
  game_over : bool;
  turbo_mode : bool;
  turbo_sound_played : bool;
  gameover_sound_played : bool;
  smoothed_y : Z;
  running : bool
}.

(** What the environment supplies to one frame. *)
Record frame_input := FrameInput {
  quit_event : bool;        (** a [pygame.QUIT] event is in the queue *)
  control_frame : camera;   (** the frame read by [detect_hand_control] *)
  spawn_height : Z;         (** [random.randint(150, 400)] of line 231 *)
  restart_frame : camera;   (** the frame read by [detect_restart] *)
  reset_height : Z          (** [random.randint(150, 400)] in [reset_game] *)
}.

(** The state after line 173 ([spawn_pipe()] before the loop). *)
Definition init_game (height : Z) : game :=
  Game 100 (HEIGHT / 2)%Z%:Q 0 (spawn_pipe height []) 0 false false false false
       (HEIGHT / 2) true.

(** [reset_game()] (lines 73-80); [bird_x] is not reset. *)
Definition reset_game (height : Z) (g : game) : game :=
  Game (bird_x g) (HEIGHT / 2)%Z%:Q 0 (spawn_pipe height []) 0 false
       (turbo_mode g) (turbo_sound_played g) (gameover_sound_played g)
       (smoothed_y g) (running g).

(** [detect_restart()] (lines 141-169): [true] re-arms the game-over
    sound. *)
Definition detect_restart (cam : camera) (g : game) : option (bool * game) :=
  match cam with
  | None => Some (false, g)
  | Some res =>
      match restart_gesture res with
      | None => None
      | Some true =>
          Some (true, Game (bird_x g) (bird_y g) (velocity g) (pipes g) (score g)
                           (game_over g) (turbo_mode g) (turbo_sound_played g) false
                           (smoothed_y g) (running g))
      | Some false => Some (false, g)
      end
  end.

(** Lines 179-181. *)
Definition handle_events (quit : bool) (g : game) : game :=
  if quit then
    Game (bird_x g) (bird_y g) (velocity g) (pipes g) (score g) (game_over g)
         (turbo_mode g) (turbo_sound_played g) (gameover_sound_played g)
         (smoothed_y g) false
  else g.

(** Lines 183-194. *)
Definition flight_phase (cam : camera) (g : game) : option (game * list sound) :=
  if game_over g then Some (g, [])
  else
    '(hand_y, cs, ev) ← detect_hand_control cam
                          (ControlState (TurboState (turbo_mode g) (turbo_sound_played g))
                                        (smoothed_y g));
    let tm := Gesture.turbo_mode (ctl_turbo cs) in
    let b := flight_step hand_y tm (Body (bird_y g) (velocity g)) in
    Some (Game (bird_x g) (Flight.bird_y b) (Flight.velocity b) (pipes g) (score g)
               (game_over g) tm (Gesture.turbo_sound_played (ctl_turbo cs))
               (gameover_sound_played g) (Smoother.smoothed_y cs) (running g), ev).

(** Lines 199-231: the new state, the sounds and the pipe blits. *)
Definition pipes_phase (height : Z) (g : game) : game * list sound * list blit :=
  let '(ps, ls, ev, bl) :=
    pipe_loop (turbo_mode g) (pipes g)
      (LoopState (bird_x g) (bird_y g) (score g) (game_over g) (gameover_sound_played g)) in
  let ps' := spawn_rule (ls_game_over ls) height (filter_pipes ps) in
  (Game (ls_bird_x ls) (ls_bird_y ls) (velocity g) ps' (ls_score ls) (ls_game_over ls)
        (turbo_mode g) (turbo_sound_played g) (ls_gameover_sound_played ls)
        (smoothed_y g) (running g), ev, bl).

(** Lines 233-236: no one-shot guard on this sound. *)
Definition boundary_phase (g : game) : game * list sound :=
  if Qltb (bird_y g) 0 || Qltb HEIGHT%:Q (bird_y g) then
    (Game (bird_x g) (bird_y g) (velocity g) (pipes g) (score g) true
          (turbo_mode g) (turbo_sound_played g) (gameover_sound_played g)
          (smoothed_y g) (running g), [GameOverSound])
  else (g, []).

(** Lines 248-259. *)
Definition restart_phase (inp : frame_input) (g : game) : option game :=
  if game_over g then
    match detect_restart (restart_frame inp) g with
    | None => None
    | Some (r, g') => Some (if r then reset_game (reset_height inp) g' else g')
    end
  else Some g.

(** Lines 238-256: the texts drawn from the state after the boundary
    check. *)
Definition frame_hud (g : game) : list blit := draw_hud (score g) (turbo_mode g) (game_over g).

(** One iteration of [while running:] (lines 176-262): the new state,
    the sounds played and the blits drawn.  The background is drawn first
    (line 177), the bird after the flight update (line 197), the pipes
    inside the pipe loop, the texts after the boundary check (lines
    238-256), before [detect_restart]. *)
Definition tick (inp : frame_input) (g : game) : option (game * list sound * list blit) :=
  let g0 := handle_events (quit_event inp) g in
  '(g1, ev1) ← flight_phase (control_frame inp) g0;
  let bl1 := [bg_blit; bird_blit (bird_x g1) (bird_y g1)] in
  let '(g2, ev2, bl2) := pipes_phase (spawn_height inp) g1 in
  let '(g3, ev3) := boundary_phase g2 in
  let bl3 := frame_hud g3 in
  g4 ← restart_phase inp g3;
  Some (g4, ev1 ++ ev2 ++ ev3, bl1 ++ bl2 ++ bl3).

(** [if detect_restart():] (line 258) holds for the frame: the restart
    read returns a hand with four raised fingers. *)
Definition restart_seen (inp : frame_input) : Prop :=
  exists res, restart_frame inp = Some res /\ restart_gesture res = Some true.

(** The loop: frames are played while [running] holds at the top. *)
Fixpoint run (inputs : list frame_input) (g : game)
    : option (game * list sound * list blit) :=
  match inputs with
  | [] => Some (g, [], [])
  | inp :: rest =>
      if running g then
        '(g', ev, bl) ← tick inp g;
        '(g'', ev', bl') ← run rest g';
        Some (g'', ev ++ ev', bl ++ bl')
      else Some (g, [], [])
  end.

(** The script (lines 8-31 and 171-266): [bg_sound.play(-1)] starts the
    looping background music (line 24) before anything else,
    [spawn_pipe()] (line 173) makes the first pipe, then the loop runs. *)
Definition program (height : Z) (inputs : list frame_input)
    : option (game * list sound * list blit) :=
  '(g, ev, bl) ← run inputs (init_game height);
  Some (g, BgMusic :: ev, bl).

(** States reachable from the start of the program. *)
Inductive reachable : game -> Prop :=
  | reachable_init height : reachable (init_game height)
  | reachable_tick g inp g' ev bl :
      reachable g -> running g = true -> tick inp g = Some (g', ev, bl) -> reachable g'.

(** ** The phases of a frame *)

Definition rearm (g : game) : game :=
  Game (bird_x g) (bird_y g) (velocity g) (pipes g) (score g) (game_over g) (turbo_mode g)
       (turbo_sound_played g) false (smoothed_y g) (running g).

Definition game_inv (g : game) : Prop :=
  pipes_wf (pipes g) /\
  turbo_sound_played g = turbo_mode g /\
  (game_over g = false -> pipes g <> []) /\
  (bird_x g = 100 \/ bird_x g = 10)%Z.

(** The frames of an input come from MediaPipe: 21 landmarks per hand,
    and the palm of the steering hand inside the frame. *)
Definition frame_wf (inp : frame_input) : Prop :=
  camera_wf (control_frame inp) /\ palm_in_frame (control_frame inp) /\
  camera_wf (restart_frame inp).

(** The scroll scenario of the specification: one pipe at [x = 100], the
    bird in its gap, the camera on but no hand in view, normal speed. *)
Definition scroll_scenario : game :=
  Game 100 350 0 [Pipe 100 300 false] 0 false false false false 350 true.

Definition steady_frame : frame_input := FrameInput false (Some (Results [])) 200 None 250.

Lemma tick_inv (inp : frame_input) (g g' : game) (ev : list sound) (bl : list blit) :
  tick inp g = Some (g', ev, bl) ->
  exists g1 ev1,
    flight_phase (control_frame inp) (handle_events (quit_event inp) g) = Some (g1, ev1) /\
    restart_phase inp (boundary_phase (pipes_phase (spawn_height inp) g1).1.1).1 = Some g' /\
    ev = ev1 ++ (pipes_phase (spawn_height inp) g1).1.2 ++
         (boundary_phase (pipes_phase (spawn_height inp) g1).1.1).2 /\
    bl = [bg_blit; bird_blit (bird_x g1) (bird_y g1)] ++ (pipes_phase (spawn_height inp) g1).2 ++
         frame_hud (boundary_phase (pipes_phase (spawn_height inp) g1).1.1).1.
Proof.
  unfold tick. intros H.
  destruct (flight_phase _ _) as [[g1 ev1]|]; simpl in H; [|discriminate].
  exists g1, ev1. split; [done|].
  destruct (pipes_phase (spawn_height inp) g1) as [[g2 ev2] bl2]. cbn [fst snd].
  destruct (boundary_phase g2) as [g3 ev3]. cbn [fst snd].
  destruct (restart_phase inp g3) as [g4|]; simpl in H; [|discriminate].
  injection H as <- <- <-. split_and!; reflexivity.
Qed.

(** The flight phase only touches the bird, the turbo globals and
    [smoothed_y]. *)
Lemma flight_phase_frame (cam : camera) (g g1 : game) (ev : list sound) :
  flight_phase cam g = Some (g1, ev) ->
  bird_x g1 = bird_x g /\ pipes g1 = pipes g /\ score g1 = score g /\
  game_over g1 = game_over g /\ gameover_sound_played g1 = gameover_sound_played g /\
  running g1 = running g /\
  (turbo_sound_played g = turbo_mode g -> turbo_sound_played g1 = turbo_mode g1) /\
  (ev = [] \/ ev = [TurboSound]).
Proof.
  unfold flight_phase. destruct (game_over g) eqn:Hgo; [intros [= <- <-]; repeat split; auto|].
  destruct (detect_hand_control cam _) as [[[hy cs] ev']|] eqn:Hd; simpl; [|discriminate].
  intros [= <- <-]. simpl. destruct cam as [res|].
  2: { injection Hd as <- <- <-. repeat split; auto. }
  apply detect_hand_control_turbo in Hd. simpl in Hd.
  split_and!; try reflexivity.
  - intros Hsy. exact (detect_turbo_gesture_synced res
                  (TurboState (turbo_mode g) (turbo_sound_played g)) _ _ Hsy Hd).
  - exact (detect_turbo_gesture_sounds _ _ _ _ Hd).
Qed.

(** The pipe phase of a frame either moves and scores every pipe or stops
    at the first collision. *)
Lemma pipes_phase_cases (height : Z) (g : game) :
  let sp := pipe_speed (turbo_mode g) in
  pipes_phase height g =
    (Game (bird_x g) (bird_y g) (velocity g)
          (spawn_rule (game_over g) height
             (filter_pipes (map (advance (bird_x g) sp) (pipes g))))
          (score g + count_newly (bird_x g) sp (pipes g)) (game_over g)
          (turbo_mode g) (turbo_sound_played g) (gameover_sound_played g)
          (smoothed_y g) (running g),
     score_sounds (bird_x g) sp (pipes g),
     pipe_blits (bird_x g) sp (pipes g)) \/
  exists pre p post,
    pipes g = pre ++ p :: post /\
    collides (bird_x g) (bird_y g) (advance (bird_x g) sp p) = true /\
    pipes_phase height g =
      (Game 10 (HEIGHT / 2)%Z%:Q (velocity g) []
            (score g + count_newly (bird_x g) sp (pre ++ [p])) true
            (turbo_mode g) (turbo_sound_played g) true (smoothed_y g) (running g),
       score_sounds (bird_x g) sp (pre ++ [p]) ++
         (if gameover_sound_played g then [] else [GameOverSound]),
       pipe_blits (bird_x g) sp (pre ++ [p])).
Proof.
  intros sp. unfold pipes_phase.
  destruct (pipe_loop_cases (turbo_mode g) (pipes g)
              (LoopState (bird_x g) (bird_y g) (score g) (game_over g) (gameover_sound_played g)))
    as [E|(pre & p & post & Hps & Hc & E)]; rewrite E.
  - by left.
  - right. exists pre, p, post. by split_and!.
Qed.

Lemma pipes_phase_frame (height : Z) (g : game) :
  let g2 := (pipes_phase height g).1.1 in
  velocity g2 = velocity g /\ turbo_mode g2 = turbo_mode g /\
  turbo_sound_played g2 = turbo_sound_played g /\ smoothed_y g2 = smoothed_y g /\
  running g2 = running g /\ (game_over g = true -> game_over g2 = true) /\
  (bird_x g2 = bird_x g \/ bird_x g2 = 10%Z) /\
  (pipes_wf (pipes g) -> pipes_wf (pipes g2)) /\
  (game_over g2 = false -> pipes g2 <> []).
Proof.
  simpl. destruct (pipes_phase_cases height g) as [->|(pre & p & post & _ & _ & ->)]; simpl.
  - split_and!; try done; [by left| |].
    + auto with flappy.
    + intros Hgo. rewrite Hgo. unfold spawn_rule.
      destruct (list.last _) as [l|] eqn:Hl.
      * apply last_Some in Hl as [init Hl]. rewrite Hl. unfold spawn_pipe.
        destruct (px l <? WIDTH - 250)%Z; simpl; intros H;
          apply (f_equal length) in H; rewrite ?length_app in H; simpl in H; lia.
      * simpl. unfold spawn_pipe. intros H.
        apply (f_equal length) in H; rewrite ?length_app in H; simpl in H; lia.
  - split_and!; try done; try (by right); intros _; split; constructor.
Qed.

(** The ground/ceiling check only sets [game_over]. *)
Lemma boundary_phase_frame (g : game) :
  let g3 := (boundary_phase g).1 in
  bird_x g3 = bird_x g /\ bird_y g3 = bird_y g /\ velocity g3 = velocity g /\
  pipes g3 = pipes g /\ score g3 = score g /\ turbo_mode g3 = turbo_mode g /\
  turbo_sound_played g3 = turbo_sound_played g /\
  gameover_sound_played g3 = gameover_sound_played g /\ running g3 = running g /\
  (game_over g = true -> game_over g3 = true) /\
  (game_over g3 = false -> game_over g = false).
Proof.
  unfold boundary_phase. destruct (_ || _); simpl; repeat split; auto; discriminate.
Qed.

(** The restart check either leaves the state alone or resets the game. *)
Lemma restart_phase_cases (inp : frame_input) (g g' : game) :
  restart_phase inp g = Some g' ->
  g' = g \/ (game_over g = true /\ g' = reset_game (reset_height inp) (rearm g)).
Proof.
  unfold restart_phase, detect_restart.
  destruct (game_over g) eqn:Hgo; [|intros [= <-]; by left].
  destruct (restart_frame inp) as [res|]; [|intros [= <-]; by left].
  destruct (restart_gesture res) as [[|]|]; intros H; try discriminate;
    injection H as <-; [right|left]; done.
Qed.

Lemma handle_events_frame (quit : bool) (g : game) :
  let g0 := handle_events quit g in
  bird_x g0 = bird_x g /\ bird_y g0 = bird_y g /\ velocity g0 = velocity g /\
  pipes g0 = pipes g /\ score g0 = score g /\ game_over g0 = game_over g /\
  turbo_mode g0 = turbo_mode g /\ turbo_sound_played g0 = turbo_sound_played g /\
  gameover_sound_played g0 = gameover_sound_played g /\ smoothed_y g0 = smoothed_y g.
Proof. unfold handle_events. destruct quit; repeat split. Qed.

(** ** The state invariant *)

Lemma fresh_pipes_wf (height : Z) : pipes_wf (spawn_pipe height []).
Proof. apply pipes_wfb_spec. reflexivity. Qed.

Lemma tick_game_inv (inp : frame_input) (g g' : game) (ev : list sound) (bl : list blit) :
  game_inv g -> tick inp g = Some (g', ev, bl) -> game_inv g'.
Proof.
  intros (Hwf & Hsy & Hne & Hbx) Ht.
  destruct (tick_inv _ _ _ _ _ Ht) as (g1 & ev1 & Hf & Hr & _).
  destruct (handle_events_frame (quit_event inp) g) as (E1 & _ & _ & E4 & _ & E6 & E7 & E8 & _).
  destruct (flight_phase_frame _ _ _ _ Hf) as (F1 & F2 & _ & F4 & _ & _ & F7 & _).
  destruct (pipes_phase_frame (spawn_height inp) g1) as (_ & P2 & P3 & _ & _ & _ & P7 & P8 & P9).
  destruct (boundary_phase_frame (pipes_phase (spawn_height inp) g1).1.1)
    as (B1 & _ & _ & B4 & _ & B6 & B7 & _ & _ & _ & B11).
  destruct (restart_phase_cases _ _ _ Hr) as [->|[_ ->]]; unfold game_inv; simpl.
  - rewrite B1, B4, B6, B7, P2, P3. split_and!.
    + apply P8. rewrite F2, E4. done.
    + apply F7. rewrite E7, E8. done.
    + intros Hgo. apply P9, B11, Hgo.
    + rewrite F1, E1 in P7. destruct P7 as [->| ->]; auto.
  - rewrite B1, B6, B7, P2, P3. split_and!.
    + apply fresh_pipes_wf.
    + apply F7. rewrite E7, E8. done.
    + done.
    + rewrite F1, E1 in P7. destruct P7 as [->| ->]; auto.
Qed.

Lemma flight_phase_over (cam : camera) (g : game) :
  game_over g = true -> flight_phase cam g = Some (g, []).
Proof. intros H. unfold flight_phase. by rewrite H. Qed.

Lemma restart_phase_restart (inp : frame_input) (g : game) (res : results) :
  game_over g = true -> restart_frame inp = Some res -> restart_gesture res = Some true ->
  restart_phase inp g = Some (reset_game (reset_height inp) (rearm g)).
Proof. intros Hgo Hf Hr. unfold restart_phase, detect_restart. by rewrite Hgo, Hf, Hr. Qed.

Lemma restart_phase_camera_fail (inp : frame_input) (g : game) :
  restart_frame inp = None -> restart_phase inp g = Some g.
Proof.
  intros Hf. unfold restart_phase, detect_restart. rewrite Hf. by destruct (game_over g).
Qed.

(** The restart check leaves an over game exactly on an open palm. *)
Lemma restart_phase_exit (inp : frame_input) (g g' : game) :
  game_over g = true -> restart_phase inp g = Some g' ->
  (game_over g' = false <-> restart_seen inp).
Proof.
  intros Hgo. unfold restart_phase, detect_restart, restart_seen. rewrite Hgo.
  destruct (restart_frame inp) as [res|]; [|intros [= <-]; split; [congruence|by intros (? & ? & _)]].
  destruct (restart_gesture res) as [[|]|] eqn:Hrg; intros Hr; try discriminate;
    injection Hr as <-; split; try done; [by eauto|congruence|].
  intros (res' & [= <-] & Hrg'). congruence.
Qed.

(** A frame that starts with the game over keeps it over until the
    restart check. *)
Lemma over_until_restart (inp : frame_input) (g : game) :
  game_over g = true ->
  let g0 := handle_events (quit_event inp) g in
  flight_phase (control_frame inp) g0 = Some (g0, []) /\
  game_over (boundary_phase (pipes_phase (spawn_height inp) g0).1.1).1 = true.
Proof.
  intros Hgo g0.
  destruct (handle_events_frame (quit_event inp) g) as (_ & _ & _ & _ & _ & E6 & _).
  fold g0 in E6. rewrite Hgo in E6. split; [by apply flight_phase_over|].
  destruct (pipes_phase_frame (spawn_height inp) g0) as (_ & _ & _ & _ & _ & P6 & _).
  destruct (boundary_phase_frame (pipes_phase (spawn_height inp) g0).1.1) as (_ & _ & _ & _ & _ & _ & _ & _ & _ & B10 & _).
  by apply B10, P6.
Qed.

(** C34: the phase [Over] is left exactly on an open palm: a frame that
    starts with the game over ends with a running game if and only if its
    restart read ([detect_restart]) shows a hand with four raised
    fingers; no other input ends the game-over screen. *)
Theorem tick_over_exit (inp : frame_input) (g g' : game) (ev : list sound) (bl : list blit) :
  game_over g = true -> tick inp g = Some (g', ev, bl) ->
  (game_over g' = false <-> restart_seen inp).
Proof.
  intros Hgo Ht. destruct (over_until_restart inp g Hgo) as [Hfl Hgo3].
  destruct (tick_inv _ _ _ _ _ Ht) as (g1 & ev1 & Hf & Hr & _).
  rewrite Hfl in Hf. injection Hf as <- _.
  exact (restart_phase_exit _ _ _ Hgo3 Hr).
Qed.

Lemma tick_over_exit_witness :
  tick (FrameInput false None 200 (Some (Results [pose_hand y_half true true true false])) 250)
    (Game 10 350 3 [] 7 true false false true 350 true) =
  Some (Game 10 350 3 [] 7 true false false true 350 true, [],
        [bg_blit; bird_blit 10 350] ++ draw_hud 7 false true) /\
  (game_over (Game 10 350 3 [] 7 true false false true 350 true) = false <->
   restart_seen (FrameInput false None 200 (Some (Results [pose_hand y_half true true true false])) 250)).
Proof.
  assert (Ht : tick (FrameInput false None 200
                       (Some (Results [pose_hand y_half true true true false])) 250)
                 (Game 10 350 3 [] 7 true false false true 350 true) =
               Some (Game 10 350 3 [] 7 true false false true 350 true, [],
                     [bg_blit; bird_blit 10 350] ++ draw_hud 7 false true))
    by (vm_compute; reflexivity).
  split; [exact Ht|]. refine (tick_over_exit _ _ _ _ _ _ Ht). reflexivity.
Defined.

(** C2: the open-palm restart.  In a frame that starts with the game
    over, four raised fingers seen by [detect_restart] start a new game:
    not over, score 0, exactly one fresh pipe at the right edge, the bird
    at mid-height with no velocity, and the game-over sound re-armed. *)
Theorem tick_restart (inp : frame_input) (g : game) (res : results) (hd : hand)
    (rest : list hand) :
  game_over g = true ->
  restart_frame inp = Some res ->
  multi_hand_landmarks res = hd :: rest ->
  fingers_up hd = Some 4%nat ->
  exists g' ev bl,
    tick inp g = Some (g', ev, bl) /\
    game_over g' = false /\ score g' = 0%Z /\
    pipes g' = [Pipe WIDTH (reset_height inp) false] /\
    bird_y g' = (HEIGHT / 2)%Z%:Q /\ velocity g' = 0 /\ gameover_sound_played g' = false.
Proof.
  intros Hgo Hf Hm Hup.
  destruct (over_until_restart inp g Hgo) as [Hfl Hgo3].
  assert (Hrg : restart_gesture res = Some true) by (unfold restart_gesture; by rewrite Hm, Hup).
  unfold tick. rewrite Hfl. simpl.
  destruct (pipes_phase (spawn_height inp) _) as [[g2 ev2] bl2]. simpl in Hgo3.
  destruct (boundary_phase g2) as [g3 ev3]. simpl in Hgo3.
  rewrite (restart_phase_restart inp g3 res Hgo3 Hf Hrg). simpl.
  eexists _, _, _. split; [reflexivity|]. done.
Qed.

Lemma tick_restart_witness :
  exists g' ev bl,
    tick (FrameInput false None 200 (Some (Results [pose_hand y_half true true true true])) 250)
      (Game 10 350 3 [] 7 true false false true 350 true) = Some (g', ev, bl) /\
    game_over g' = false /\ score g' = 0%Z /\ pipes g' = [Pipe WIDTH 250 false] /\
    bird_y g' = (HEIGHT / 2)%Z%:Q /\ velocity g' = 0 /\ gameover_sound_played g' = false.
Proof.
  apply (tick_restart
           (FrameInput false None 200 (Some (Results [pose_hand y_half true true true true])) 250)
           (Game 10 350 3 [] 7 true false false true 350 true)
           (Results [pose_hand y_half true true true true])
           (pose_hand y_half true true true true) []); reflexivity.
Defined.

Lemma flight_phase_no_hand (cam : camera) (g : game) (res : results) :
  game_over g = false -> cam = Some res -> multi_hand_landmarks res = [] ->
  exists g1, flight_phase cam g = Some (g1, []) /\
    smoothed_y g1 = smoothed_y g /\ turbo_mode g1 = turbo_mode g /\
    Flight.body_equiv (Body (bird_y g1) (velocity g1))
      (flight_step (Some (smoothed_y g)) (turbo_mode g) (Body (bird_y g) (velocity g))).
Proof.
  intros Hgo -> Hm. unfold flight_phase. rewrite Hgo.
  unfold detect_hand_control, detect_turbo_gesture. rewrite Hm. simpl.
  eexists. split; [reflexivity|]. simpl. split_and!; [done|done|reflexivity].
Qed.

(** C10: a frame in which the camera works but sees no hand still steers
    the bird: [detect_hand_control] returns the stale [smoothed_y], which
    is truthy, so the velocity is overwritten by the proportional law
    toward it instead of growing by [gravity] alone. *)
Theorem tick_no_hand_steers (inp : frame_input) (g : game) (res : results) :
  game_over g = false ->
  control_frame inp = Some res -> multi_hand_landmarks res = [] ->
  smoothed_y g <> 0%Z -> restart_frame inp = None ->
  exists g' ev bl,
    tick inp g = Some (g', ev, bl) /\
    smoothed_y g' = smoothed_y g /\
    (velocity g' == ((smoothed_y g)%:Q - bird_y g) * gain (turbo_mode g) + gravity)%Q.
Proof.
  intros Hgo Hc Hm Hs Hr.
  destruct (handle_events_frame (quit_event inp) g) as (_ & E2 & E3 & _ & _ & E6 & E7 & _ & _ & E10).
  destruct (flight_phase_no_hand (control_frame inp) (handle_events (quit_event inp) g) res)
    as (g1 & Hf & F1 & F2 & _ & Fv); [by rewrite E6|done|done|].
  rewrite E10, E7 in *. rewrite E2, E3 in Fv.
  unfold flight_step in Fv. rewrite py_truthy_Some in Fv by done. simpl in Fv.
  rewrite Qred_correct in Fv.
  unfold tick. rewrite Hf. simpl.
  destruct (pipes_phase_frame (spawn_height inp) g1) as (P1 & _ & _ & P4 & _).
  destruct (pipes_phase (spawn_height inp) g1) as [[g2 ev2] bl2]. simpl in P1, P4.
  destruct (boundary_phase_frame g2) as (_ & _ & B3 & _ & _ & _ & _ & _ & _ & _ & _).
  assert (smoothed_y (boundary_phase g2).1 = smoothed_y g2) as B10
    by (unfold boundary_phase; by destruct (_ || _)).
  destruct (boundary_phase g2) as [g3 ev3]. simpl in B3, B10.
  rewrite (restart_phase_camera_fail inp g3 Hr). simpl.
  eexists _, _, _. split; [reflexivity|]. split; [congruence|].
  rewrite B3, P1. exact Fv.
Qed.

Lemma tick_no_hand_steers_witness :
  exists g' ev bl,
    tick (FrameInput false (Some (Results [])) 200 None 250)
      (Game 100 200 (-3) [Pipe 900 300 false] 0 false false false false 350 true)
      = Some (g', ev, bl) /\
    smoothed_y g' = 350%Z /\
    (velocity g' == (350%Z%:Q - 200) * gain false + gravity)%Q.
Proof.
  apply (tick_no_hand_steers (FrameInput false (Some (Results [])) 200 None 250)
           (Game 100 200 (-3) [Pipe 900 300 false] 0 false false false false 350 true)
           (Results [])); simpl; (reflexivity || lia).
Defined.

Lemma spawn_rule_over (height : Z) (ps : list pipe) : spawn_rule true height ps = ps.
Proof. unfold spawn_rule. by rewrite andb_false_r. Qed.

Lemma out_of_screen_test (y : Q) :
  (y < 0 \/ HEIGHT%:Q < y)%Q -> (Qltb y 0 || Qltb HEIGHT%:Q y) = true.
Proof. intros [H|H]; apply orb_true_iff; [left|right]; by apply Qltb_spec. Qed.

(** C11: after a death at the ground or the ceiling the frame loop keeps
    going: the bird is not moved back on screen and the pipes are not
    cleared, so each frame (until a pipe reaches the bird or the palm
    restarts the game) scrolls and scores the pipes while the game is
    over and plays the game-over sound again, without the one-shot guard
    the collision death has. *)
Theorem tick_over_frame (inp : frame_input) (g : game) :
  game_over g = true ->
  (bird_y g < 0 \/ HEIGHT%:Q < bird_y g)%Q ->
  restart_frame inp = None ->
  Forall (fun p => overlaps_x (bird_x g) (px p - pipe_speed (turbo_mode g)) = false) (pipes g) ->
  exists g' ev bl,
    tick inp g = Some (g', ev, bl) /\
    game_over g' = true /\ bird_y g' = bird_y g /\ In GameOverSound ev /\
    pipes g' = filter_pipes (map (advance (bird_x g) (pipe_speed (turbo_mode g))) (pipes g)) /\
    score g' = (score g + count_newly (bird_x g) (pipe_speed (turbo_mode g)) (pipes g))%Z.
Proof.
  intros Hgo Hy Hr Hno.
  destruct (over_until_restart inp g Hgo) as [Hfl _].
  destruct (handle_events_frame (quit_event inp) g)
    as (E1 & E2 & _ & E4 & E5 & E6 & E7 & _ & _ & _).
  set (g0 := handle_events (quit_event inp) g) in *.
  unfold tick. fold g0. rewrite Hfl. simpl.
  destruct (pipes_phase_cases (spawn_height inp) g0)
    as [->|(pre & p & post & Hps & Hc & _)].
  - unfold boundary_phase. simpl. rewrite E2, out_of_screen_test by done. simpl.
    rewrite (restart_phase_camera_fail inp _ Hr). simpl.
    eexists _, _, _. split; [reflexivity|]. simpl.
    rewrite E1, E4, E5, E6, E7, Hgo, spawn_rule_over. split_and!; try done.
    rewrite !in_app_iff. simpl. auto.
  - exfalso. rewrite E4 in Hps. rewrite Hps in Hno.
    apply Forall_app in Hno as [_ Hno]. inversion Hno as [|? ? Hp _]; subst.
    unfold collides in Hc. rewrite E1, E7 in Hc. simpl in Hc. rewrite Hp in Hc. discriminate.
Qed.

Lemma tick_over_frame_witness :
  exists g' ev bl,
    tick (FrameInput false None 200 None 250)
      (Game 100 (-1) 5 [Pipe 30 300 false] 4 true false false true 350 true) = Some (g', ev, bl) /\
    game_over g' = true /\ bird_y g' = -1 /\ In GameOverSound ev /\
    pipes g' = filter_pipes (map (advance 100 (pipe_speed false)) [Pipe 30 300 false]) /\
    score g' = (4 + count_newly 100 (pipe_speed false) [Pipe 30 300 false])%Z.
Proof.
  apply (tick_over_frame (FrameInput false None 200 None 250)
           (Game 100 (-1) 5 [Pipe 30 300 false] 4 true false false true 350 true)); simpl.
  - reflexivity.
  - left. lra.
  - reflexivity.
  - repeat constructor.
Defined.

(** C12: once a collision has put the bird at [x = 10] it stays there
    for the rest of the run: [reset_game] does not restore [bird_x = 100]. *)
Theorem tick_bird_x_stays (inp : frame_input) (g g' : game) (ev : list sound) (bl : list blit) :
  bird_x g = 10%Z -> tick inp g = Some (g', ev, bl) -> bird_x g' = 10%Z.
Proof.
  intros Hbx Ht.
  destruct (tick_inv _ _ _ _ _ Ht) as (g1 & ev1 & Hf & Hr & _).
  destruct (handle_events_frame (quit_event inp) g) as (E1 & _).
  destruct (flight_phase_frame _ _ _ _ Hf) as (F1 & _).
  destruct (pipes_phase_frame (spawn_height inp) g1) as (_ & _ & _ & _ & _ & _ & P7 & _).
  destruct (boundary_phase_frame (pipes_phase (spawn_height inp) g1).1.1) as (B1 & _).
  destruct (restart_phase_cases _ _ _ Hr) as [->|[_ ->]]; simpl; rewrite B1;
    destruct P7 as [->| ->]; congruence.
Qed.

Lemma tick_bird_x_stays_witness :
  (exists bl,
     tick (FrameInput false None 200 (Some (Results [pose_hand y_half true true true true])) 250)
       (Game 10 350 3 [] 7 true false false true 350 true) =
     Some (Game 10 350 0 [Pipe WIDTH 250 false] 0 false false false false 350 true, [], bl)) /\
  bird_x (Game 10 350 0 [Pipe WIDTH 250 false] 0 false false false false 350 true) = 10%Z.
Proof.
  split; [eexists; reflexivity|].
  eapply (tick_bird_x_stays
           (FrameInput false None 200 (Some (Results [pose_hand y_half true true true true])) 250)
           (Game 10 350 3 [] 7 true false false true 350 true) _ [] _); reflexivity.
Defined.

Lemma count_occ_score_sounds (bx sp : Z) (ps : list pipe) :
  Z.of_nat (count_occ sound_eq_dec (score_sounds bx sp ps) ScoreSound) = count_newly bx sp ps.
Proof.
  unfold score_sounds, count_newly.
  induction (length (List.filter (newly_scored bx sp) ps)) as [|n IH]; simpl; [done|].
  destruct (sound_eq_dec ScoreSound ScoreSound); [lia|done].
Qed.

Lemma count_occ_no_score (ev : list sound) :
  (ev = [] \/ ev = [TurboSound] \/ ev = [GameOverSound]) ->
  count_occ sound_eq_dec ev ScoreSound = 0%nat.
Proof.
  intros [->|[->| ->]]; simpl; [done| |].
  - by destruct (sound_eq_dec TurboSound ScoreSound).
  - by destruct (sound_eq_dec GameOverSound ScoreSound).
Qed.

(** C5: within a game the score moves only by scoring: it grows by one
    per score sound of the frame, and otherwise only the restart sets it
    to 0 (together with a fresh pipe and a running game). *)
Theorem tick_score (inp : frame_input) (g g' : game) (ev : list sound) (bl : list blit) :
  tick inp g = Some (g', ev, bl) ->
  score g' = (score g + Z.of_nat (count_occ sound_eq_dec ev ScoreSound))%Z \/
  (score g' = 0%Z /\ game_over g' = false /\ pipes g' = [Pipe WIDTH (reset_height inp) false]).
Proof.
  intros Ht. destruct (tick_inv _ _ _ _ _ Ht) as (g1 & ev1 & Hf & Hr & -> & _).
  destruct (handle_events_frame (quit_event inp) g) as (_ & _ & _ & _ & E5 & _).
  destruct (flight_phase_frame _ _ _ _ Hf) as (_ & _ & F3 & _ & _ & _ & _ & F8).
  destruct (restart_phase_cases _ _ _ Hr) as [->|[_ ->]]; [left|by right].
  assert (Hb : score (boundary_phase (pipes_phase (spawn_height inp) g1).1.1).1 =
               score (pipes_phase (spawn_height inp) g1).1.1 /\
               count_occ sound_eq_dec (boundary_phase (pipes_phase (spawn_height inp) g1).1.1).2
                 ScoreSound = 0%nat).
  { unfold boundary_phase. destruct (_ || _); simpl; split; try done; by apply count_occ_no_score; auto. }
  destruct Hb as [-> Hb].
  rewrite !count_occ_app, Hb, (count_occ_no_score ev1) by (destruct F8 as [->| ->]; auto).
  destruct (pipes_phase_cases (spawn_height inp) g1) as [->|(pre & p & post & _ & _ & ->)];
    simpl; rewrite ?count_occ_app.
  - rewrite !Nat2Z.inj_add, count_occ_score_sounds. lia.
  - rewrite (count_occ_no_score (if gameover_sound_played g1 then [] else [GameOverSound]))
      by (destruct (gameover_sound_played g1); auto).
    rewrite !Nat2Z.inj_add, count_occ_score_sounds. lia.
Qed.

Lemma tick_score_witness :
  tick (FrameInput false None 200 None 250)
    (Game 100 (-1) 5 [Pipe 30 300 false] 4 true false false true 350 true) =
  Some (Game 100 (-1) 5 [Pipe 25 300 true] 5 true false false true 350 true,
        [ScoreSound; GameOverSound],
        [bg_blit; bird_blit 100 (-1); Blit GreenPipeImg 25 (-100); Blit PipeImg 25 480] ++
        draw_hud 5 false true) /\
  (score (Game 100 (-1) 5 [Pipe 25 300 true] 5 true false false true 350 true) =
     (4 + Z.of_nat (count_occ sound_eq_dec [ScoreSound; GameOverSound] ScoreSound))%Z \/
   (score (Game 100 (-1) 5 [Pipe 25 300 true] 5 true false false true 350 true) = 0%Z /\
    game_over (Game 100 (-1) 5 [Pipe 25 300 true] 5 true false false true 350 true) = false /\
    pipes (Game 100 (-1) 5 [Pipe 25 300 true] 5 true false false true 350 true) =
      [Pipe WIDTH (reset_height (FrameInput false None 200 None 250)) false])).
Proof.
  split; [reflexivity|].
  eapply (tick_score (FrameInput false None 200 None 250)
            (Game 100 (-1) 5 [Pipe 30 300 false] 4 true false false true 350 true)).
  reflexivity.
Defined.

Lemma restart_phase_total (inp : frame_input) (g : game) :
  camera_wf (restart_frame inp) -> exists g', restart_phase inp g = Some g'.
Proof.
  unfold restart_phase, detect_restart. destruct (game_over g); [|by eexists].
  destruct (restart_frame inp) as [res|]; simpl; [|by eexists]. intros Hwf.
  unfold restart_gesture. destruct (multi_hand_landmarks res) as [|hd rest]; [by eexists|].
  inversion Hwf as [|? ? Hhd _]; subst.
  destruct (fingers_up_Some hd Hhd) as [up Hup]. rewrite Hup.
  cbn -[Nat.leb]. destruct (4 <=? up)%nat; by eexists.
Qed.

Lemma flight_phase_smoothed (cam : camera) (g g1 : game) (ev : list sound) :
  palm_in_frame cam -> (0 <= smoothed_y g <= HEIGHT)%Z ->
  flight_phase cam g = Some (g1, ev) -> (0 <= smoothed_y g1 <= HEIGHT)%Z.
Proof.
  intros Hp Hs. unfold flight_phase. destruct (game_over g); [by intros [= <- _]|].
  destruct (detect_hand_control cam _) as [[[hy cs] ev']|] eqn:Hd; simpl; [|discriminate].
  intros [= <- _]. simpl. eapply (detect_hand_control_keeps_range cam); [exact Hp | | exact Hd]. exact Hs.
Qed.

(** Along frames whose palm is in the frame, [smoothed_y] stays on
    screen. *)
Lemma tick_smoothed_range (inp : frame_input) (g g' : game) (ev : list sound) (bl : list blit) :
  palm_in_frame (control_frame inp) -> (0 <= smoothed_y g <= HEIGHT)%Z ->
  tick inp g = Some (g', ev, bl) -> (0 <= smoothed_y g' <= HEIGHT)%Z.
Proof.
  intros Hp Hs Ht. destruct (tick_inv _ _ _ _ _ Ht) as (g1 & ev1 & Hf & Hr & _).
  destruct (handle_events_frame (quit_event inp) g) as (_ & _ & _ & _ & _ & _ & _ & _ & _ & E10).
  pose proof (flight_phase_smoothed _ _ _ _ Hp ltac:(by rewrite E10) Hf) as Hs1.
  destruct (pipes_phase_frame (spawn_height inp) g1) as (_ & _ & _ & P4 & _).
  assert (Hb : smoothed_y (boundary_phase (pipes_phase (spawn_height inp) g1).1.1).1
               = smoothed_y g1) by (unfold boundary_phase; by destruct (_ || _)).
  destruct (restart_phase_cases _ _ _ Hr) as [->|[_ ->]]; simpl; by rewrite ?Hb, ?P4.
Qed.

(** A frame of MediaPipe hands from an on-screen [smoothed_y] returns. *)
Lemma tick_defined (inp : frame_input) (g : game) :
  frame_wf inp -> (0 <= smoothed_y g <= HEIGHT)%Z -> exists g' ev bl, tick inp g = Some (g', ev, bl).
Proof.
  intros (Hc & Hp & Hr) Hs. unfold tick.
  assert (exists r, flight_phase (control_frame inp) (handle_events (quit_event inp) g) = Some r)
    as [[g1 ev1] ->].
  { unfold flight_phase. destruct (game_over _); [by eexists|].
    destruct (handle_events_frame (quit_event inp) g) as (_ & _ & _ & _ & _ & _ & _ & _ & _ & E10).
    destruct (detect_hand_control_total (control_frame inp)
                (ControlState (TurboState (turbo_mode (handle_events (quit_event inp) g))
                   (turbo_sound_played (handle_events (quit_event inp) g)))
                   (smoothed_y (handle_events (quit_event inp) g))) Hc Hp ltac:(simpl; by rewrite E10))
      as [[[hy cs] ev] ->].
    by eexists. }
  simpl. destruct (pipes_phase (spawn_height inp) g1) as [[g2 ev2] bl2].
  destruct (boundary_phase g2) as [g3 ev3].
  destruct (restart_phase_total inp g3 Hr) as [g4 ->]. by eexists _, _, _.
Qed.

(** C25: a frame whose camera reads return MediaPipe hands (21 landmarks
    each, the steering palm inside the frame) never raises, from a state
    whose [smoothed_y] is on screen, and it leaves [smoothed_y] on
    screen, so that the next frame again returns. *)
Theorem tick_total (inp : frame_input) (g : game) :
  frame_wf inp -> (0 <= smoothed_y g <= HEIGHT)%Z ->
  exists g' ev bl, tick inp g = Some (g', ev, bl) /\ (0 <= smoothed_y g' <= HEIGHT)%Z.
Proof.
  intros Hwf Hs. destruct (tick_defined inp g Hwf Hs) as (g' & ev & bl & Ht).
  exists g', ev, bl. split; [exact Ht|].
  destruct Hwf as (_ & Hp & _). exact (tick_smoothed_range _ _ _ _ _ Hp Hs Ht).
Qed.

Lemma tick_total_witness :
  exists g' ev bl,
    tick (FrameInput false (Some (Results [pose_hand y_half true true false false])) 200
            (Some (Results [])) 250) (init_game 300) = Some (g', ev, bl) /\
    (0 <= smoothed_y g' <= HEIGHT)%Z.
Proof.
  apply tick_total; [|vm_compute; split; congruence].
  split_and!; [simpl; repeat constructor; simpl; lia | apply palm_in_frame_pose | simpl; constructor].
Defined.

(** C26: a whole run over such frames never raises: it plays frames until
    the input ends or a quit event has cleared [running]. *)
Theorem run_total (inputs : list frame_input) (g : game) :
  Forall frame_wf inputs -> (0 <= smoothed_y g <= HEIGHT)%Z ->
  exists g' ev bl, run inputs g = Some (g', ev, bl).
Proof.
  intros Hwf. revert g. induction Hwf as [|inp rest Hinp Hrest IH]; intros g Hs; simpl;
    [by eexists _, _, _|].
  destruct (running g); [|by eexists _, _, _].
  destruct (tick_defined inp g Hinp Hs) as (g' & ev & bl & Ht). rewrite Ht. simpl.
  destruct Hinp as (_ & Hp & _).
  destruct (IH g' (tick_smoothed_range _ _ _ _ _ Hp Hs Ht)) as (g'' & ev' & bl' & ->).
  by eexists _, _, _.
Qed.

Lemma run_total_witness :
  exists g' ev bl, run (repeat steady_frame 3) scroll_scenario = Some (g', ev, bl).
Proof.
  apply run_total; [|vm_compute; split; congruence].
  repeat (constructor;
    [unfold frame_wf; simpl; split_and!; [constructor | apply palm_in_frame_no_hand | exact I]|]).
  constructor.
Defined.

Lemma tick_running (inp : frame_input) (g g' : game) (ev : list sound) (bl : list blit) :
  tick inp g = Some (g', ev, bl) -> running g' = running (handle_events (quit_event inp) g).
Proof.
  intros Ht. destruct (tick_inv _ _ _ _ _ Ht) as (g1 & ev1 & Hf & Hr & _).
  destruct (flight_phase_frame _ _ _ _ Hf) as (_ & _ & _ & _ & _ & F6 & _).
  destruct (pipes_phase_frame (spawn_height inp) g1) as (_ & _ & _ & _ & P5 & _).
  destruct (boundary_phase_frame (pipes_phase (spawn_height inp) g1).1.1)
    as (_ & _ & _ & _ & _ & _ & _ & _ & B9 & _).
  destruct (restart_phase_cases _ _ _ Hr) as [->|[_ ->]]; simpl; congruence.
Qed.

(** C28: a [pygame.QUIT] event does not cut the frame short: the frame
    that sees it still runs completely, and it is the last one, since
    [running] is false when the loop condition is checked again. *)
Theorem run_quit (inp : frame_input) (rest : list frame_input) (g g' : game)
    (ev : list sound) (bl : list blit) :
  running g = true -> quit_event inp = true -> tick inp g = Some (g', ev, bl) ->
  run (inp :: rest) g = Some (g', ev, bl).
Proof.
  intros Hrun Hq Ht. simpl. rewrite Hrun, Ht. simpl.
  pose proof (tick_running _ _ _ _ _ Ht) as Hr'. unfold handle_events in Hr'.
  rewrite Hq in Hr'. simpl in Hr'.
  destruct rest as [|inp' rest]; simpl; [|rewrite Hr'; simpl]; by rewrite !app_nil_r.
Qed.

Lemma run_quit_witness :
  exists bl,
    run [FrameInput true None 200 None 250; steady_frame] scroll_scenario =
    Some (Game 100 (701 # 2) (1 # 2) [Pipe 95 300 false; Pipe 1000 200 false] 0 false
               false false false 350 false, [], bl).
Proof.
  eexists.
  eapply (run_quit (FrameInput true None 200 None 250) [steady_frame] scroll_scenario);
    reflexivity.
Defined.

Lemma flight_phase_turbo (cam : camera) (g g1 : game) (ev : list sound) :
  turbo_sound_played g = turbo_mode g ->
  flight_phase cam g = Some (g1, ev) ->
  (ev = [TurboSound] <-> turbo_mode g = false /\ turbo_mode g1 = true) /\
  (ev = [] \/ ev = [TurboSound]).
Proof.
  intros Hsy. unfold flight_phase.
  destruct (game_over g); [intros [= <- <-]; split; [split; [done|intros [Ha Hb]; simpl in *; congruence]|by left]|].
  destruct (detect_hand_control cam _) as [[[hy cs] ev']|] eqn:Hd; simpl; [|discriminate].
  intros [= <- <-]. destruct cam as [res|].
  2: { injection Hd as <- <- <-. split; [split; [done|intros [Ha Hb]; simpl in *; congruence]|by left]. }
  apply detect_hand_control_turbo in Hd. simpl in Hd.
  simpl. split; [exact (detect_turbo_gesture_sound_iff res
                   (TurboState (turbo_mode g) (turbo_sound_played g)) _ _ Hsy Hd)|].
  exact (detect_turbo_gesture_sounds _ _ _ _ Hd).
Qed.

Lemma pipes_phase_no_turbo_sound (height : Z) (g : game) :
  ~ In TurboSound (pipes_phase height g).1.2.
Proof.
  destruct (pipes_phase_cases height g) as [->|(pre & p & post & _ & _ & ->)]; simpl;
    unfold score_sounds; rewrite ?in_app_iff; intros H;
    repeat match goal with
    | H : _ \/ _ |- _ => destruct H as [H|H]
    | H : In _ (repeat _ _) |- _ => apply repeat_spec in H; discriminate
    | H : In _ (if ?b then _ else _) |- _ => destruct b; simpl in H
    | H : _ = _ |- _ => discriminate
    | H : False |- _ => done
    end.
Qed.

Lemma boundary_phase_no_turbo_sound (g : game) : ~ In TurboSound (boundary_phase g).2.
Proof. unfold boundary_phase. destruct (_ || _); simpl; intuition discriminate. Qed.

(** C29: the turbo sound of a frame is the feedback on entering turbo:
    from a state where the turbo flag mirrors [turbo_mode], a frame plays
    it exactly when [turbo_mode] goes from false to true. *)
Theorem tick_turbo_sound (inp : frame_input) (g g' : game) (ev : list sound) (bl : list blit) :
  game_inv g -> tick inp g = Some (g', ev, bl) ->
  (In TurboSound ev <-> turbo_mode g = false /\ turbo_mode g' = true).
Proof.
  intros (_ & Hsy & _) Ht. destruct (tick_inv _ _ _ _ _ Ht) as (g1 & ev1 & Hf & Hr & -> & _).
  destruct (handle_events_frame (quit_event inp) g) as (_ & _ & _ & _ & _ & _ & E7 & E8 & _).
  destruct (flight_phase_turbo _ _ _ _ ltac:(by rewrite E7, E8) Hf) as [Hedge Hev].
  rewrite E7 in Hedge.
  destruct (pipes_phase_frame (spawn_height inp) g1) as (_ & P2 & _).
  destruct (boundary_phase_frame (pipes_phase (spawn_height inp) g1).1.1)
    as (_ & _ & _ & _ & _ & B6 & _).
  assert (turbo_mode g' = turbo_mode g1) as ->.
  { destruct (restart_phase_cases _ _ _ Hr) as [->|[_ ->]]; simpl; congruence. }
  rewrite <- Hedge, !in_app_iff.
  pose proof (pipes_phase_no_turbo_sound (spawn_height inp) g1).
  pose proof (boundary_phase_no_turbo_sound (pipes_phase (spawn_height inp) g1).1.1).
  destruct Hev as [->| ->]; simpl; intuition congruence.
Qed.

Lemma tick_turbo_sound_witness :
  tick (FrameInput false (Some (Results [pose_hand y_half true true false false])) 200 None 250)
    scroll_scenario =
  Some (Game 100 (701 # 2) (1 # 2) [Pipe 90 300 false; Pipe 1000 200 false] 0 false
             true true false 350 true, [TurboSound],
        [bg_blit; bird_blit 100 (701 # 2); Blit GreenPipeImg 90 (-100); Blit PipeImg 90 480] ++
        draw_hud 0 true false) /\
  (In TurboSound [TurboSound] <->
   turbo_mode scroll_scenario = false /\
   turbo_mode (Game 100 (701 # 2) (1 # 2) [Pipe 90 300 false; Pipe 1000 200 false] 0 false
                    true true false 350 true) = true).
Proof.
  assert (Ht : tick (FrameInput false (Some (Results [pose_hand y_half true true false false]))
                   200 None 250) scroll_scenario =
    Some (Game 100 (701 # 2) (1 # 2) [Pipe 90 300 false; Pipe 1000 200 false] 0 false
               true true false 350 true, [TurboSound],
          [bg_blit; bird_blit 100 (701 # 2); Blit GreenPipeImg 90 (-100); Blit PipeImg 90 480] ++
          draw_hud 0 true false)) by (vm_compute; reflexivity).
  split; [exact Ht|].
  refine (tick_turbo_sound _ _ _ _ _ _ Ht).
  unfold game_inv; simpl; split_and!; [apply pipes_wfb_spec; reflexivity | done | done | by left].
Defined.

(** The pipe loop only adds to the score. *)
Lemma pipes_phase_score_mono (height : Z) (g : game) :
  (score g <= score (pipes_phase height g).1.1)%Z.
Proof.
  destruct (pipes_phase_cases height g) as [->|(pre & p & post & _ & _ & ->)];
    simpl; unfold count_newly; lia.
Qed.

(** A frame keeps or raises the score, or the restart sets it to 0. *)
Lemma tick_score_mono (inp : frame_input) (g g' : game) (ev : list sound) (bl : list blit) :
  tick inp g = Some (g', ev, bl) -> (score g <= score g')%Z \/ score g' = 0%Z.
Proof.
  intros Ht. destruct (tick_inv _ _ _ _ _ Ht) as (g1 & ev1 & Hf & Hr & _ & _).
  destruct (handle_events_frame (quit_event inp) g) as (_ & _ & _ & _ & E5 & _).
  destruct (flight_phase_frame _ _ _ _ Hf) as (_ & _ & F3 & _).
  destruct (boundary_phase_frame (pipes_phase (spawn_height inp) g1).1.1) as (_ & _ & _ & _ & B5 & _).
  pose proof (pipes_phase_score_mono (spawn_height inp) g1).
  destruct (restart_phase_cases _ _ _ Hr) as [->|[_ ->]]; [left; lia|by right].
Qed.

(** Induction on the frames that reach a state, for a property of the
    start that every frame preserves. *)
Lemma reachable_ind_inv (P : game -> Prop) :
  (forall height, P (init_game height)) ->
  (forall inp g g' ev bl, P g -> tick inp g = Some (g', ev, bl) -> P g') ->
  forall g, reachable g -> P g.
Proof. intros Hi Ht g. induction 1; eauto. Qed.

Lemma init_game_inv (height : Z) : game_inv (init_game height).
Proof. unfold game_inv, init_game; simpl. split_and!; [apply fresh_pipes_wf|done|done|by left]. Qed.

(** C32: the score is a non-negative Python [int] in every state the
    program reaches: frames only add to it and [reset_game] sets it to
    0. *)
Theorem reachable_score_nonneg (g : game) : reachable g -> (0 <= score g)%Z.
Proof.
  revert g. apply (reachable_ind_inv (fun g => 0 <= score g)%Z); [done|].
  intros inp g g' ev bl Hs Ht.
  destruct (tick_score_mono _ _ _ _ _ Ht); lia.
Qed.

Lemma reachable_score_nonneg_witness : (0 <= score (init_game 300))%Z.
Proof. apply reachable_score_nonneg. constructor. Defined.

(** ** The sounds of a run *)

(** A frame plays one-shot sounds only. *)
Lemma tick_no_music (inp : frame_input) (g g' : game) (ev : list sound) (bl : list blit) :
  tick inp g = Some (g', ev, bl) -> Forall (fun s => s <> BgMusic) ev.
Proof.
  intros Ht. destruct (tick_inv _ _ _ _ _ Ht) as (g1 & ev1 & Hf & _ & -> & _).
  destruct (flight_phase_frame _ _ _ _ Hf) as (_ & _ & _ & _ & _ & _ & _ & F8).
  assert (Hs : forall bx sp ps, Forall (fun s => s <> BgMusic) (score_sounds bx sp ps)).
  { intros bx sp ps. apply Forall_forall. intros s ->%repeat_spec. discriminate. }
  repeat apply Forall_app_2.
  - destruct F8 as [-> | ->]; repeat constructor; discriminate.
  - destruct (pipes_phase_cases (spawn_height inp) g1) as [->|(pre & p & post & _ & _ & ->)];
      simpl; [apply Hs|apply Forall_app_2; [apply Hs|]].
    destruct (gameover_sound_played g1); repeat constructor; discriminate.
  - unfold boundary_phase. destruct (_ || _); repeat constructor; discriminate.
Qed.

Lemma run_no_music (inputs : list frame_input) (g g' : game) (ev : list sound) (bl : list blit) :
  run inputs g = Some (g', ev, bl) -> Forall (fun s => s <> BgMusic) ev.
Proof.
  revert g g' ev bl. induction inputs as [|inp rest IH]; intros g g' ev bl; simpl.
  - intros [= _ <- _]. constructor.
  - destruct (running g); [|intros [= _ <- _]; constructor].
    destruct (tick inp g) as [[[g1 ev1] bl1]|] eqn:Ht; simpl; [|discriminate].
    destruct (run rest g1) as [[[g2 ev2] bl2]|] eqn:Hr; simpl; [|discriminate].
    intros [= _ <- _]. apply Forall_app_2; [exact (tick_no_music _ _ _ _ _ Ht)|exact (IH _ _ _ _ Hr)].
Qed.

(** C33: the background music is started once, looping, before the
    first frame, and no frame starts it again: the sounds of the program
    are [BgMusic] followed by the one-shot sounds of the run. *)
Theorem program_music_once (height : Z) (inputs : list frame_input) (g : game)
    (ev : list sound) (bl : list blit) :
  program height inputs = Some (g, ev, bl) ->
  exists ev', ev = BgMusic :: ev' /\ (BgMusic ∉ ev') /\ run inputs (init_game height) = Some (g, ev', bl).
Proof.
  unfold program. destruct (run inputs (init_game height)) as [[[g1 ev1] bl1]|] eqn:Hr;
    simpl; [|discriminate].
  intros [= <- <- <-]. exists ev1. split_and!; [done| |done].
  pose proof (run_no_music _ _ _ _ _ Hr) as HF. rewrite Forall_forall in HF.
  intros Hin%list_elem_of_In. exact (HF _ Hin eq_refl).
Qed.

Lemma program_music_once_witness :
  program 300 [] = Some (init_game 300, [BgMusic], []) /\
  exists ev', [BgMusic] = BgMusic :: ev' /\ (BgMusic ∉ ev') /\
              run [] (init_game 300) = Some (init_game 300, ev', []).
Proof. split; [reflexivity|]. apply (program_music_once 300 []). reflexivity. Defined.

(** C1: every state the program reaches satisfies the invariant: the
    pipes are ordered, more than 250 apart and on screen, the turbo sound
    flag mirrors [turbo_mode], there is a pipe whenever the game is not
    over, and the bird is at [x = 100] or, after a collision, [x = 10]. *)
Theorem reachable_game_inv (g : game) : reachable g -> game_inv g.
Proof. revert g. apply reachable_ind_inv; [exact init_game_inv | exact tick_game_inv]. Qed.

Lemma reachable_game_inv_witness : game_inv (init_game 300).
Proof. apply reachable_game_inv. constructor. Defined.

(** C7: in every reachable state at most five pipes exist and at most one
    of them overlaps the bird horizontally. *)
Theorem reachable_pipes_bounds (g : game) :
  reachable g ->
  (length (pipes g) <= 5)%nat /\
  (length (filter (fun p => overlaps_x (bird_x g) (px p) = true) (pipes g)) <= 1)%nat.
Proof.
  intros Hr. destruct (reachable_ind_inv _ init_game_inv tick_game_inv g Hr) as [Hwf _].
  split; [by apply pipes_wf_length | by apply pipes_wf_one_overlap].
Qed.

Lemma reachable_pipes_bounds_witness :
  (length (pipes (init_game 300)) <= 5)%nat /\
  (length (filter (fun p => overlaps_x (bird_x (init_game 300)) (px p) = true)
             (pipes (init_game 300))) <= 1)%nat.
Proof. apply reachable_pipes_bounds. constructor. Defined.

End Game.
