(* ===== verification/Display.v ===== *)
(** * What a frame shows against the state it leaves
    (src/hand_flappy_pro.py, lines 176-262).

    [tick] returns the blits of a frame in program order: the background,
    the bird after the flight update, the two images of each pipe inside
    the pipe loop, and the texts of lines 238-256, drawn before
    [detect_restart].  The theorems relate that drawing to the state of
    the game at the end of the frame: the texts show the final score, turbo
    mode and phase except in the frame that restarts, and every pipe of the
    new state is drawn where it is, except the one spawned in the frame. *)

From stdpp Require Import base list strings.
From Stdlib Require Import QArith ZArith Lia.
From S2P Require Import Prelude Render Gesture Smoother Flight Pipes Game.
Import Render Gesture Pipes Game.

Module Display.

(** ** Lemmas on the blits of the pipe loop *)

Lemma pipe_blits_elem (bx sp : Z) (ps : list pipe) (q : pipe) :
  q ∈ ps -> draw_pipe (advance bx sp q) ⊆ pipe_blits bx sp ps.
Proof.
  induction ps as [|p ps IH]; [by intros ?%elem_of_nil|].
  rewrite pipe_blits_cons, elem_of_cons. intros Hq b Hb. apply elem_of_app.
  destruct Hq as [->|Hq]; [by left|right; by apply IH].
Qed.

(** A pipe left of the right edge after the spawn rule was already in the
    list the rule got. *)
Lemma spawn_rule_old (over : bool) (height : Z) (ps : list pipe) (p : pipe) :
  p ∈ spawn_rule over height ps -> (px p < WIDTH)%Z -> p ∈ ps.
Proof.
  unfold spawn_rule, spawn_pipe. destruct (_ && _); [|done].
  rewrite elem_of_app, list_elem_of_singleton. intros [Hp| ->]; [done|simpl; lia].
Qed.

(** The frame's blits, split at the texts of the state it draws them
    from. *)
Lemma tick_blits (inp : frame_input) (g g' : game) (ev : list sound) (bl : list blit) :
  tick inp g = Some (g', ev, bl) ->
  exists g1 g3,
    g3 = (boundary_phase (pipes_phase (spawn_height inp) g1).1.1).1 /\
    restart_phase inp g3 = Some g' /\
    (score (handle_events (quit_event inp) g) <= score g3)%Z /\
    bl = [bg_blit; bird_blit (bird_x g1) (bird_y g1)] ++ (pipes_phase (spawn_height inp) g1).2 ++
         frame_hud g3 /\
    (game_over (handle_events (quit_event inp) g) = true -> g1 = handle_events (quit_event inp) g).
Proof.
  intros Ht. destruct (tick_inv _ _ _ _ _ Ht) as (g1 & ev1 & Hf & Hr & _ & ->).
  eexists g1, _. split_and!; [reflexivity|exact Hr| |reflexivity|].
  - destruct (flight_phase_frame _ _ _ _ Hf) as (_ & _ & F3 & _).
    destruct (boundary_phase_frame (pipes_phase (spawn_height inp) g1).1.1) as (_ & _ & _ & _ & B5 & _).
    pose proof (pipes_phase_score_mono (spawn_height inp) g1). lia.
  - intros Hgo. rewrite flight_phase_over in Hf by done. by injection Hf.
Qed.

(** The pipe frame used by the witnesses: the bird passes the pipe at
    [x = 30] and has fallen through the ceiling. *)
Lemma over_frame_tick :
  tick (FrameInput false None 200 None 250)
    (Game 100 (-1) 5 [Pipe 30 300 false] 4 true false false true 350 true) =
  Some (Game 100 (-1) 5 [Pipe 25 300 true] 5 true false false true 350 true,
        [ScoreSound; GameOverSound],
        [bg_blit; bird_blit 100 (-1); Blit GreenPipeImg 25 (-100); Blit PipeImg 25 480] ++
        draw_hud 5 false true).
Proof. reflexivity. Qed.

(** ** Properties *)

(** C9: a frame ends with the texts of a state: either those of the
    state the frame leaves (its score, the turbo banner when turbo mode is
    on, and the game-over screen when it is over), or, in the frame that
    restarts, the game-over screen of the state before [reset_game]. *)
Theorem tick_hud (inp : frame_input) (g g' : game) (ev : list sound) (bl : list blit) :
  tick inp g = Some (g', ev, bl) ->
  (exists pre, bl = pre ++ frame_hud g') \/
  (exists pre g3, bl = pre ++ frame_hud g3 /\ game_over g3 = true /\
                  g' = reset_game (reset_height inp) (rearm g3)).
Proof.
  intros Ht. destruct (tick_blits _ _ _ _ _ Ht) as (g1 & g3 & _ & Hr & _ & -> & _).
  rewrite app_assoc.
  destruct (restart_phase_cases _ _ _ Hr) as [->|[Hgo ->]]; [left; by eexists|right].
  by exists ([bg_blit; bird_blit (bird_x g1) (bird_y g1)] ++ (pipes_phase (spawn_height inp) g1).2), g3.
Qed.

Lemma tick_hud_witness :
  tick (FrameInput false None 200 None 250)
    (Game 100 (-1) 5 [Pipe 30 300 false] 4 true false false true 350 true) =
  Some (Game 100 (-1) 5 [Pipe 25 300 true] 5 true false false true 350 true,
        [ScoreSound; GameOverSound],
        [bg_blit; bird_blit 100 (-1); Blit GreenPipeImg 25 (-100); Blit PipeImg 25 480] ++
        draw_hud 5 false true) /\
  ((exists pre, [bg_blit; bird_blit 100 (-1); Blit GreenPipeImg 25 (-100); Blit PipeImg 25 480] ++
                draw_hud 5 false true =
              pre ++ frame_hud (Game 100 (-1) 5 [Pipe 25 300 true] 5 true false false true 350 true)) \/
   (exists pre g3, [bg_blit; bird_blit 100 (-1); Blit GreenPipeImg 25 (-100); Blit PipeImg 25 480] ++
                   draw_hud 5 false true = pre ++ frame_hud g3 /\ game_over g3 = true /\
                   Game 100 (-1) 5 [Pipe 25 300 true] 5 true false false true 350 true =
                     reset_game (reset_height (FrameInput false None 200 None 250)) (rearm g3))).
Proof.
  split; [exact over_frame_tick|]. exact (tick_hud _ _ _ _ _ over_frame_tick).
Defined.

(** C31: in the frame that restarts the game the screen shows the
    game-over texts with the score reached before the reset (at least the
    score the frame started with: pipes still scroll and score while the
    game is over), although the state the frame leaves is a new game with
    score 0. *)
Theorem tick_restart_screen (inp : frame_input) (g : game) (res : results) :
  game_over g = true -> restart_frame inp = Some res -> restart_gesture res = Some true ->
  exists g' ev bl pre s,
    tick inp g = Some (g', ev, bl) /\ game_over g' = false /\ score g' = 0%Z /\
    bl = pre ++ draw_hud s (turbo_mode g) true /\ (score g <= s)%Z.
Proof.
  intros Hgo Hf Hrg.
  destruct (over_until_restart inp g Hgo) as [Hfl Hgo3].
  assert (Hex : exists r, tick inp g = Some r).
  { unfold tick. rewrite Hfl. simpl.
    destruct (pipes_phase _ _) as [[g2 ev2] bl2]. simpl in Hgo3.
    destruct (boundary_phase g2) as [g3 ev3]. simpl in Hgo3.
    rewrite (restart_phase_restart inp g3 res Hgo3 Hf Hrg). by eexists. }
  destruct Hex as [[[g' ev] bl] Ht].
  destruct (tick_blits _ _ _ _ _ Ht) as (g1 & g3 & Hg3 & Hr & Hs & Hbl & Hg1).
  destruct (handle_events_frame (quit_event inp) g) as (_ & _ & _ & _ & E5 & E6 & E7 & _).
  rewrite Hg1 in Hg3, Hbl by congruence. rewrite <- Hg3 in Hgo3.
  rewrite (restart_phase_restart inp g3 res Hgo3 Hf Hrg) in Hr. injection Hr as <-.
  set (g0 := handle_events (quit_event inp) g) in *.
  exists (reset_game (reset_height inp) (rearm g3)), ev, bl,
    ([bg_blit; bird_blit (bird_x g0) (bird_y g0)] ++ (pipes_phase (spawn_height inp) g0).2),
    (score g3).
  split_and!; [exact Ht|done|done| |lia].
  rewrite Hbl, app_assoc. unfold frame_hud. rewrite Hgo3. do 2 f_equal.
  destruct (pipes_phase_frame (spawn_height inp) g0) as (_ & P2 & _).
  subst g3. destruct (boundary_phase_frame (pipes_phase (spawn_height inp) g0).1.1)
    as (_ & _ & _ & _ & _ & B6 & _).
  congruence.
Qed.

Lemma tick_restart_screen_witness :
  exists g' ev bl pre s,
    tick (FrameInput false None 200 (Some (Results [pose_hand y_half true true true true])) 250)
      (Game 100 (-1) 5 [Pipe 30 300 false] 4 true false false true 350 true) = Some (g', ev, bl) /\
    game_over g' = false /\ score g' = 0%Z /\
    bl = pre ++ draw_hud s false true /\ (4 <= s)%Z.
Proof.
  apply (tick_restart_screen
           (FrameInput false None 200 (Some (Results [pose_hand y_half true true true true])) 250)
           (Game 100 (-1) 5 [Pipe 30 300 false] 4 true false false true 350 true)
           (Results [pose_hand y_half true true true true])); reflexivity.
Defined.

(** C8: every pipe of the state a frame leaves is drawn in that frame at
    its position (its top image above the gap, its bottom image below
    it), except a pipe spawned in the frame at the right edge, which is
    first drawn in the next frame. *)
Theorem tick_draws_pipes (inp : frame_input) (g g' : game) (ev : list sound) (bl : list blit) :
  tick inp g = Some (g', ev, bl) ->
  forall p, p ∈ pipes g' -> (px p < WIDTH)%Z -> draw_pipe p ⊆ bl.
Proof.
  intros Ht p Hp Hlt. destruct (tick_blits _ _ _ _ _ Ht) as (g1 & g3 & -> & Hr & _ & -> & _).
  destruct (restart_phase_cases _ _ _ Hr) as [->|[_ ->]].
  2: { simpl in Hp. unfold spawn_pipe in Hp. simpl in Hp.
       apply list_elem_of_singleton in Hp as ->. simpl in Hlt. lia. }
  destruct (boundary_phase_frame (pipes_phase (spawn_height inp) g1).1.1) as (_ & _ & _ & B4 & _).
  rewrite B4 in Hp.
  destruct (pipes_phase_cases (spawn_height inp) g1) as [E|(pre & q & post & _ & _ & E)];
    rewrite E in Hp |- *; simpl in Hp; [|by apply elem_of_nil in Hp].
  apply spawn_rule_old in Hp; [|done]. unfold filter_pipes in Hp.
  apply list_elem_of_filter in Hp as [_ Hp].
  apply list_elem_of_In, in_map_iff in Hp as (q & <- & Hq). apply list_elem_of_In in Hq.
  intros b Hb. apply elem_of_app; right; apply elem_of_app; left.
  by apply (pipe_blits_elem _ _ _ q).
Qed.

Lemma tick_draws_pipes_witness :
  (tick (FrameInput false None 200 None 250)
     (Game 100 (-1) 5 [Pipe 30 300 false] 4 true false false true 350 true) =
   Some (Game 100 (-1) 5 [Pipe 25 300 true] 5 true false false true 350 true,
         [ScoreSound; GameOverSound],
         [bg_blit; bird_blit 100 (-1); Blit GreenPipeImg 25 (-100); Blit PipeImg 25 480] ++
         draw_hud 5 false true)) /\
  (Pipe 25 300 true ∈ [Pipe 25 300 true]) /\ (25 < WIDTH)%Z /\
  (draw_pipe (Pipe 25 300 true) ⊆
     [bg_blit; bird_blit 100 (-1); Blit GreenPipeImg 25 (-100); Blit PipeImg 25 480] ++
     draw_hud 5 false true).
Proof.
  split_and!; [exact over_frame_tick|by left|reflexivity|].
  apply (tick_draws_pipes _ _ _ _ _ over_frame_tick); [by left|reflexivity].
Defined.

End Display.
